(** * ExpressionMatcher: a boolean expression over a collection of items

    A shallow embedding of [match.py].  The module parses an expression with
    Python's [ast.parse], rewrites the tree with an [ast.NodeTransformer]
    (names and literals become [key in items], [empty()] becomes
    [not items], [anything()] becomes [True], everything outside the small
    grammar raises [SyntaxError]) and evaluates the rewritten tree with
    [items] bound to the collection under test.

    What belongs to [match.py] is translated line by line: [Transformer.error],
    [Transformer.generic_visit], [ExpressionMatcher.__init__], [matches],
    [__call__] and [__repr__].  What belongs to the Python runtime ([ast.parse],
    [NodeTransformer], [compile], [eval], [str], [in], [not], [and], [or]) is
    modelled on the fragment the module can reach, and every such definition
    says so. *)

From Stdlib Require Import ZArith String Ascii List Lia.
From Stdlib Require Import DecimalString DecimalPos DecimalZ.
From stdpp Require Import base gmap strings.

Set Warnings "-register-all".

Local Open Scope string_scope.
Local Open Scope Z_scope.

(** ** Outcomes of Python code *)

(** The exceptions the modelled code can raise.  [SyntaxError msg lineno
    offset text] stands for [SyntaxError(msg, (None, lineno, offset, text))]:
    the file name is always [None] in [match.py]. *)
Inductive exn : Type :=
| SyntaxError (msg : string) (lineno offset : Z) (text : option string)
| AttributeError (attr : string)
| ValueError (msg : string)
| TypeError (msg : string)
| NameError (name : string).

(** A call returns, raises, or leaves the modelled fragment of Python
    ([Unmodelled]: nothing is claimed about what Python does there). *)
Inductive outcome (A : Type) : Type :=
| Return (a : A)
| Raise (e : exn)
| Unmodelled.

Arguments Return {A} a.
Arguments Raise {A} e.
Arguments Unmodelled {A}.

#[global] Instance outcome_ret : MRet outcome := fun A a => Return a.

#[global] Instance outcome_bind : MBind outcome := fun A B k m =>
  match m with
  | Return a => k a
  | Raise e => Raise e
  | Unmodelled => Unmodelled
  end.

(** The loop of [NodeTransformer.generic_visit] over a list field: children
    are visited from left to right and the first exception ends the loop. *)
Definition mapM {A B : Type} (f : A -> outcome B) : list A -> outcome (list B) :=
  fix go (l : list A) : outcome (list B) :=
    match l with
    | [] => Return []
    | a :: l' => b ← f a; bs ← go l'; Return (b :: bs)
    end.

(** ** The syntax tree of Python's [ast] module *)

(** Values of [ast.Constant] nodes.  A float is given by its shortest
    decimal form, the one [repr] prints: [CFloat digits decpt] is the finite
    float, positive or zero, whose shortest decimal that reads back to it is
    [0.digits * 10^decpt], where [digits] has no leading and no trailing
    zero; zero is [CFloat "0" 1].  Infinities, complex and bytes constants
    are left out. *)
Inductive constant : Type :=
| CNone
| CEllipsis
| CBool (b : bool)
| CInt (z : Z)
| CStr (s : string)
| CFloat (digits : string) (decpt : Z).

(** The position attributes of a node.  [lineno] and [col_offset] are absent
    on a node built by hand (reading them raises [AttributeError]);
    [end_lineno] and [end_col_offset] then read as [None]. *)
Record attributes : Type := Attributes {
  lineno : option Z;
  col_offset : option Z;
  end_lineno : option Z;
  end_col_offset : option Z
}.

Definition no_attributes : attributes := Attributes None None None None.

Inductive expr_context : Type := Load | Store | Del.
Inductive boolop : Type := And | Or.
Inductive unaryop : Type := Invert | Not | UAdd | USub.
Inductive operator : Type :=
  Add | Sub | Mult | MatMult | Div | Mod | Pow | LShift | RShift
| BitOr | BitXor | BitAnd | FloorDiv.
Inductive cmpop : Type :=
  Eq | NotEq | Lt | LtE | Gt | GtE | Is | IsNot | In | NotIn.

(** Expression nodes.  [IfExp], [Attribute] and [Tuple] stand for the node
    classes that [generic_visit] sends to its default arm; the classes left
    out ([Lambda], [Dict], [Subscript], ...) go the same way.  A keyword
    argument [name=value] of a call is the pair of its name and value. *)
Inductive expr : Type :=
| BoolOp (op : boolop) (values : list expr) (a : attributes)
| BinOp (left : expr) (op : operator) (right : expr) (a : attributes)
| UnaryOp (op : unaryop) (operand : expr) (a : attributes)
| IfExp (test body orelse : expr) (a : attributes)
| Compare (left : expr) (ops : list cmpop) (comparators : list expr)
          (a : attributes)
| Call (func : expr) (args : list expr) (keywords : list (option string * expr))
       (a : attributes)
| Constant (value : constant) (a : attributes)
| Attribute (value : expr) (attr : string) (ctx : expr_context) (a : attributes)
| Name (id : string) (ctx : expr_context) (a : attributes)
| Tuple (elts : list expr) (ctx : expr_context) (a : attributes).

(** The root of a tree parsed with [mode="eval"]. *)
Inductive mod_ : Type :=
| Expression (body : expr).

Definition attrs (node : expr) : attributes :=
  match node with
  | BoolOp _ _ a | BinOp _ _ _ a | UnaryOp _ _ a | IfExp _ _ _ a
  | Compare _ _ _ a | Call _ _ _ a | Constant _ a | Attribute _ _ _ a
  | Name _ _ a | Tuple _ _ a => a
  end.

(** [node.lineno] and [node.col_offset]. *)
Definition get_lineno (node : expr) : outcome Z :=
  match lineno (attrs node) with
  | Some l => Return l
  | None => Raise (AttributeError "lineno")
  end.

Definition get_col_offset (node : expr) : outcome Z :=
  match col_offset (attrs node) with
  | Some c => Return c
  | None => Raise (AttributeError "col_offset")
  end.

(** Python's [x or y] for [x : int | None]: [x] when it is truthy (present
    and not zero), else [y], which is only then evaluated. *)
Definition py_or (x : option Z) (y : outcome Z) : outcome Z :=
  match x with
  | Some v => if v =? 0 then y else Return v
  | None => y
  end.

Definition zeros (n : nat) : string := string_of_list_ascii (repeat "0"%char n).

(** The exponent of a float in scientific notation: a sign, then two digits
    at least. *)
Definition exponent_text (e : Z) : string :=
  (if e <? 0 then "-" else "+")
  ++ (if Z.abs e <? 10 then "0" else EmptyString)
  ++ NilZero.string_of_int (Z.to_int (Z.abs e)).

(** [repr] of a float, from its shortest decimal form [0.digits * 10^decpt]:
    scientific notation when [decpt <= -4] or [decpt > 16], else positional
    notation, with [.0] added when nothing follows the point. *)
Definition float_repr (digits : string) (decpt : Z) : string :=
  let n := Z.of_nat (String.length digits) in
  if (decpt <=? -4) || (16 <? decpt) then
    match digits with
    | EmptyString => EmptyString
    | String d EmptyString =>
        String d EmptyString ++ "e" ++ exponent_text (decpt - 1)
    | String d more =>
        String d ("." ++ more) ++ "e" ++ exponent_text (decpt - 1)
    end
  else if decpt <=? 0 then "0." ++ zeros (Z.to_nat (- decpt)) ++ digits
  else if n <=? decpt then digits ++ zeros (Z.to_nat (decpt - n)) ++ ".0"
  else substring 0 (Z.to_nat decpt) digits ++ "."
       ++ substring (Z.to_nat decpt) (Z.to_nat (n - decpt)) digits.

(** [str(value)] of a constant. *)
Definition str (value : constant) : string :=
  match value with
  | CNone => "None"
  | CEllipsis => "Ellipsis"
  | CBool true => "True"
  | CBool false => "False"
  | CInt z => NilZero.string_of_int (Z.to_int z)
  | CStr s => s
  | CFloat digits decpt => float_repr digits decpt
  end.

(** ** [ExpressionMatcher.Transformer] *)

Module Transformer.

Record t : Type := Make { expression : option string }.

(** [error]: the column of a [SyntaxError] counts from 1. *)
Definition error {A : Type} (self : t) (msg : string) (lineno col_offset : Z)
  : outcome A :=
  Raise (SyntaxError msg lineno (col_offset + 1) (expression self)).

Definition items_var : string := "items".

Definition is_nil {A : Type} (l : list A) : bool :=
  match l with [] => true | _ => false end.

(** [generic_visit].  The [case]s of the source that test one node class
    are gathered in one arm (the four [ast.Call] cases keep their order);
    arms of different classes cannot overlap.  [NodeTransformer.visit] finds
    no [visit_<Class>] method in the class and calls [generic_visit] on
    every node, so the recursive calls below are the [self.visit(child)] of
    [super().generic_visit(node)].  The operator
    nodes [ast.And()], [ast.Or()] and [ast.Not()] are visited too; they match
    the structural arm, have no child and come back unchanged. *)
Fixpoint generic_visit (self : t) (node : expr) {struct node} : outcome expr :=
  match node with
  | Name id Load _ =>
      Return (Compare (Constant (CStr id) no_attributes) [In]
                      [Name items_var Load no_attributes] no_attributes)
  | Constant value _ =>
      Return (Compare (Constant (CStr (str value)) no_attributes) [In]
                      [Name items_var Load no_attributes] no_attributes)
  | Call (Name fid _ _ as func) args keywords _ =>
      if (fid =? "empty")%string && is_nil args && is_nil keywords then
        Return (UnaryOp Not (Name items_var Load no_attributes) no_attributes)
      else if (fid =? "anything")%string && is_nil args && is_nil keywords then
        Return (Constant (CBool true) no_attributes)
      else if (fid =? "empty")%string || (fid =? "anything")%string then
        (* point the error to the argument list *)
        l ← py_or (end_lineno (attrs func)) (get_lineno node);
        c ← py_or (end_col_offset (attrs func)) (get_col_offset node);
        error self ("invalid syntax, " ++ fid ++ "() does not accept any argument")
              l c
      else
        l ← get_lineno node;
        c ← get_col_offset node;
        error self "invalid syntax, unknown function" l c
  | BoolOp op values a =>
      values' ← mapM (generic_visit self) values;
      Return (BoolOp op values' a)
  | UnaryOp Not operand a =>
      operand' ← generic_visit self operand;
      Return (UnaryOp Not operand' a)
  | BinOp (Name _ _ _ as lhs) _ _ _ =>
      (* point the error to the operator *)
      l ← py_or (end_lineno (attrs lhs)) (get_lineno node);
      c ← py_or (end_col_offset (attrs lhs)) (get_col_offset node);
      error self "invalid syntax, unsupported operation" l c
  | _ =>
      l ← get_lineno node;
      c ← get_col_offset node;
      error self "invalid syntax" l (c + 1)
  end.

Definition visit (self : t) (node : mod_) : outcome mod_ :=
  match node with
  | Expression body =>
      body' ← generic_visit self body;
      Return (Expression body')
  end.

End Transformer.

(** ** Values and the operators of the rewritten tree *)

(** The values that evaluation meets: the constants, and the three shapes of
    an items collection (a [str] is a raw text, a [list] an ordered sequence
    of strings, a [set] a set of strings). *)
Inductive value : Type :=
| VNone
| VEllipsis
| VBool (b : bool)
| VInt (z : Z)
| VStr (s : string)
| VList (l : list string)
| VSet (s : gset string)
| VFloat (digits : string) (decpt : Z).

Definition value_of (c : constant) : value :=
  match c with
  | CNone => VNone
  | CEllipsis => VEllipsis
  | CBool b => VBool b
  | CInt z => VInt z
  | CStr s => VStr s
  | CFloat digits decpt => VFloat digits decpt
  end.

(** [len(v)], where [v] has a length. *)
Definition len (v : value) : option nat :=
  match v with
  | VStr s => Some (String.length s)
  | VList l => Some (length l)
  | VSet s => Some (size s)
  | _ => None
  end.

(** [bool(v)]: a container is true when its length is not zero. *)
Definition truthy (v : value) : bool :=
  match v with
  | VNone => false
  | VEllipsis => true
  | VBool b => b
  | VInt z => negb (z =? 0)
  | VStr _ | VList _ | VSet _ =>
      match len v with Some O => false | _ => true end
  | VFloat digits _ => negb (String.eqb digits "0")
  end.

(** [s in t] on two [str]: [s] occurs in [t] at some offset. *)
Fixpoint str_contains (s t : string) : bool :=
  String.prefix s t ||
  match t with
  | EmptyString => false
  | String _ t' => str_contains s t'
  end.

(** [key in container].  A [str] only takes a [str] on the left; a [list]
    compares its elements with [==], a [set] hashes the key first (a [list]
    cannot be hashed).  Elements are strings, which are equal to no value of
    another type. *)
Definition contains (container key : value) : outcome bool :=
  match container with
  | VStr t =>
      match key with
      | VStr s => Return (str_contains s t)
      | _ => Raise (TypeError "'in <string>' requires string as left operand")
      end
  | VList l =>
      match key with
      | VStr s => Return (bool_decide (s ∈ l))
      | _ => Return false
      end
  | VSet elems =>
      match key with
      | VStr s => Return (bool_decide (s ∈ elems))
      | VList _ => Raise (TypeError "unhashable type: 'list'")
      | _ => Return false
      end
  | _ => Raise (TypeError "argument is not iterable")
  end.

(** ** [ast.fix_missing_locations], [compile] and [eval] *)

Definition fill (x : option Z) (inherited : Z) : Z :=
  match x with Some v => v | None => inherited end.

(** [ast.fix_missing_locations]: a node without a position attribute takes
    the one of its nearest ancestor that has it, and [(1, 0, 1, 0)] at the
    root.  Only attributes change. *)
Fixpoint fix_locations (l c el ec : Z) (node : expr) {struct node} : expr :=
  let a := attrs node in
  let l := fill (lineno a) l in
  let c := fill (col_offset a) c in
  let el := fill (end_lineno a) el in
  let ec := fill (end_col_offset a) ec in
  let a' := Attributes (Some l) (Some c) (Some el) (Some ec) in
  let child := fix_locations l c el ec in
  match node with
  | BoolOp op values _ => BoolOp op (map child values) a'
  | BinOp lhs op rhs _ => BinOp (child lhs) op (child rhs) a'
  | UnaryOp op operand _ => UnaryOp op (child operand) a'
  | IfExp test body orelse _ => IfExp (child test) (child body) (child orelse) a'
  | Compare lhs ops comparators _ =>
      Compare (child lhs) ops (map child comparators) a'
  | Call func args keywords _ =>
      Call (child func) (map child args)
           (map (fun kw => (fst kw, child (snd kw))) keywords) a'
  | Constant value _ => Constant value a'
  | Attribute value attr ctx _ => Attribute (child value) attr ctx a'
  | Name id ctx _ => Name id ctx a'
  | Tuple elts ctx _ => Tuple (map child elts) ctx a'
  end.

Definition fix_missing_locations (node : mod_) : mod_ :=
  match node with
  | Expression body => Expression (fix_locations 1 0 1 0 body)
  end.

(** [compile(tree, mode="eval")] on the node classes the transformer lets
    through.  The compiler validates the tree first and refuses a [BoolOp]
    with fewer than two operands; the code object is represented by the tree
    it was compiled from.  The validation of positions is not modelled. *)
Fixpoint validate (node : expr) {struct node} : outcome unit :=
  match node with
  | BoolOp _ values _ =>
      if (length values <? 2)%nat then
        Raise (ValueError "BoolOp with less than 2 values")
      else _ ← mapM validate values; Return tt
  | UnaryOp Not operand _ => validate operand
  | Compare lhs [In] [rhs] _ => _ ← validate lhs; validate rhs
  | Constant _ _ => Return tt
  | Name _ Load _ => Return tt
  | _ => Unmodelled
  end.

Definition compile (tree : mod_) : outcome mod_ :=
  match tree with
  | Expression body => _ ← validate body; Return tree
  end.

(** [bool(v)] decides whether [and] / [or] stops at operand [v]. *)
Definition stops (op : boolop) (v : value) : bool :=
  match op with
  | And => negb (truthy v)
  | Or => truthy v
  end.

(** [BoolOp]: the operands are evaluated from left to right; the result is
    the first operand at which the operator stops, or else the last one. *)
Definition eval_values (ev : expr -> outcome value) (op : boolop)
  : list expr -> outcome value :=
  fix go (vs : list expr) : outcome value :=
    match vs with
    | [] => Unmodelled
    | e :: rest =>
        v ← ev e;
        match rest with
        | [] => Return v
        | _ :: _ => if stops op v then Return v else go rest
        end
    end.

(** Evaluation of a compiled expression in a namespace of local variables.
    [and] and [or] return the operand they stop at, not its truth value;
    [not] and [in] return a [bool].  A name that is not a local variable
    would be looked up in the builtins, which are not modelled. *)
Fixpoint eval_expr (locals : gmap string value) (node : expr) {struct node}
  : outcome value :=
  match node with
  | Constant c _ => Return (value_of c)
  | Name id Load _ =>
      match locals !! id with
      | Some v => Return v
      | None => Unmodelled
      end
  | UnaryOp Not operand _ =>
      v ← eval_expr locals operand;
      Return (VBool (negb (truthy v)))
  | BoolOp op values _ => eval_values (eval_expr locals) op values
  | Compare lhs [In] [rhs] _ =>
      key ← eval_expr locals lhs;
      container ← eval_expr locals rhs;
      b ← contains container key;
      Return (VBool b)
  | _ => Unmodelled
  end.

Definition eval (code : mod_) (locals : gmap string value) : outcome value :=
  match code with
  | Expression body => eval_expr locals body
  end.

(** ** [ast.parse(source, mode="eval")] on a fragment of Python's grammar *)

(** Python's tokenizer and parser are not part of [match.py].  They are
    modelled on one-line sources made of names, the keywords [and], [or],
    [not], [True], [False] and [None], decimal integers, floats of at most
    15 significant digits, string literals without prefix or escape,
    parentheses, calls with positional arguments, and the operators
    [+ - * < > ==].  A name is made of ASCII letters, digits and
    underscores, and of the letters of a short table of letters outside
    ASCII; as Python does, the parser puts the NFKC normal form of a name in
    the tree.  A source the model does not accept (a Python syntax error, or
    Python outside this fragment) gives [None]; nothing is derived from a
    [None].  Offsets count bytes from 0, as [col_offset] does. *)
Module Parser.

Inductive token : Type :=
| NAME (s : string)
| NUMBER (z : Z)
| FLOAT (digits : string) (decpt : Z)
| STRING (s : string)
| OP (s : string).

(** A token with the offsets of its first character and of the character
    after its last one. *)
Record ltoken : Type := LTok { tok : token; tstart : Z; tend : Z }.

Definition between (lo hi : nat) (c : ascii) : bool :=
  let n := nat_of_ascii c in ((lo <=? n) && (n <=? hi))%nat.

Definition is_digit (c : ascii) : bool := between 48 57 c.

Definition is_name_start (c : ascii) : bool :=
  between 97 122 c || between 65 90 c || Ascii.eqb c "_".

Definition is_name_char (c : ascii) : bool := is_name_start c || is_digit c.

Definition is_space (c : ascii) : bool :=
  Ascii.eqb c " " || Ascii.eqb c "009".

Definition is_quote (c : ascii) : bool :=
  Ascii.eqb c "'" || Ascii.eqb c "034".

Definition is_op_char (c : ascii) : bool :=
  existsb (Ascii.eqb c) ["("; ")"; ","; "+"; "-"; "*"; "<"; ">"]%char.

(** The longest prefix of [s] whose characters satisfy [p], and the rest. *)
Fixpoint span (p : ascii -> bool) (s : string) : string * string :=
  match s with
  | EmptyString => (EmptyString, EmptyString)
  | String c s' =>
      if p c then let (w, r) := span p s' in (String c w, r)
      else (EmptyString, s)
  end.

Definition starts_with (p : ascii -> bool) (s : string) : bool :=
  match s with
  | EmptyString => false
  | String c _ => p c
  end.

Definition digits_value (w : string) : Z :=
  fold_left (fun acc c => 10 * acc + (Z.of_nat (nat_of_ascii c) - 48))
            (list_ascii_of_string w) 0.

Definition width (w : string) : Z := Z.of_nat (String.length w).

(** Three letters outside ASCII, in UTF-8: the micro sign U+00B5, the Greek
    small letter mu U+03BC and the letter e with acute accent U+00E9. *)
Definition micro_sign : string := String "194" (String "181" EmptyString).
Definition greek_mu : string := String "206" (String "188" EmptyString).
Definition e_acute : string := String "195" (String "169" EmptyString).

(** The letters outside ASCII that the model knows, each with its NFKC
    normal form: the micro sign becomes the Greek mu, the other two are
    kept.  None of them combines with a neighbour, so a name is normalised
    letter by letter. *)
Definition letters : list (string * string) :=
  [(micro_sign, greek_mu); (greek_mu, greek_mu); (e_acute, e_acute)].

(** The letter of the table that [s] begins with. *)
Definition letter_at (s : string) : option (string * string) :=
  List.find (fun entry => String.prefix (fst entry) s) letters.

Definition starts_letter (s : string) : bool :=
  match letter_at s with Some _ => true | None => false end.

Definition starts_name (s : string) : bool :=
  starts_with is_name_start s || starts_letter s.

(** The longest prefix of [s] made of ASCII name characters and of letters
    of the table, and the rest; [take] counts the bytes of a letter that
    remain to be taken. *)
Fixpoint name_span (take : nat) (s : string) {struct s} : string * string :=
  match s with
  | EmptyString => (EmptyString, EmptyString)
  | String c s' =>
      match take with
      | S n => let (w, r) := name_span n s' in (String c w, r)
      | O =>
          if is_name_char c then
            let (w, r) := name_span 0 s' in (String c w, r)
          else
            match letter_at s with
            | Some (raw, _) =>
                let (w, r) := name_span (String.length raw - 1) s' in
                (String c w, r)
            | None => (EmptyString, s)
            end
      end
  end.

(** The NFKC normal form of a name: every letter of the table is replaced
    by its normal form; [skip] counts the bytes of a replaced letter that
    remain to be skipped. *)
Fixpoint nfkc_from (skip : nat) (w : string) {struct w} : string :=
  match w with
  | EmptyString => EmptyString
  | String c w' =>
      match skip with
      | S n => nfkc_from n w'
      | O =>
          match letter_at w with
          | Some (raw, normal) =>
              normal ++ nfkc_from (String.length raw - 1) w'
          | None => String c (nfkc_from 0 w')
          end
      end
  end.

Definition nfkc (w : string) : string := nfkc_from 0 w.

Fixpoint lstrip_zeros (s : string) : string :=
  match s with
  | EmptyString => EmptyString
  | String c s' => if Ascii.eqb c "0" then lstrip_zeros s' else s
  end.

Definition reverse (s : string) : string :=
  string_of_list_ascii (rev (list_ascii_of_string s)).

Definition rstrip_zeros (s : string) : string :=
  reverse (lstrip_zeros (reverse s)).

(** The exponent [e<sign><digits>] that [r] begins with: its value and the
    rest. *)
Definition exponent_part (r : string) : option (Z * string) :=
  match r with
  | EmptyString => None
  | String c r1 =>
      if Ascii.eqb c "e" || Ascii.eqb c "E" then
        let (sign, r2) :=
          match r1 with
          | EmptyString => (1, r1)
          | String c' r2 =>
              if Ascii.eqb c' "-" then (-1, r2)
              else if Ascii.eqb c' "+" then (1, r2)
              else (1, r1)
          end in
        let (ds, r3) := span is_digit r2 in
        if String.eqb ds EmptyString then None
        else Some (sign * digits_value ds, r3)
      else None
  end.

(** What makes the digits before [r] a float: a fraction [.<digits>], an
    exponent, or both.  The fraction digits, the exponent and the rest. *)
Definition float_tail (r : string) : option (string * Z * string) :=
  match r with
  | EmptyString => None
  | String c r1 =>
      if Ascii.eqb c "." then
        let (frac, r2) := span is_digit r1 in
        if String.eqb frac EmptyString then None
        else match exponent_part r2 with
             | Some (e, r3) => Some (frac, e, r3)
             | None => Some (frac, 0, r2)
             end
      else match exponent_part r with
           | Some (e, r3) => Some (EmptyString, e, r3)
           | None => None
           end
  end.

(** The shortest decimal form of the float that a literal denotes.  A
    decimal of at most 15 significant digits, in the range of the normal
    floats, is the shortest decimal of the float nearest to it: its
    significant digits are those of the literal.  Longer literals are left
    out. *)
Definition float_digits (int frac : string) (exp : Z) : option (string * Z) :=
  let all := int ++ frac in
  let lead := lstrip_zeros all in
  let decpt := width int + exp - (width all - width lead) in
  let significant := rstrip_zeros lead in
  if String.eqb significant EmptyString then Some ("0", 1)
  else if (15 <? width significant) || (decpt <? -300) || (300 <? decpt)
  then None
  else Some (significant, decpt).

Fixpoint tokens (fuel : nat) (pos : Z) (s : string) {struct fuel}
  : option (list ltoken) :=
  match fuel with
  | O => None
  | S fuel =>
      match s with
      | EmptyString => Some []
      | String c rest =>
          if is_space c then tokens fuel (pos + 1) rest
          else if starts_name s then
            let (w, r) := name_span 0 s in
            if starts_with is_quote r then None
            else ts ← tokens fuel (pos + width w) r;
                 Some (LTok (NAME w) pos (pos + width w) :: ts)
          else if is_digit c then
            let (w, r) := span is_digit s in
            match float_tail r with
            | Some (frac, exp, r') =>
                let last := pos + width w + (width r - width r') in
                if starts_with (fun x => is_name_char x || Ascii.eqb x ".") r'
                then None
                else
                  match float_digits w frac exp with
                  | Some (digits, decpt) =>
                      ts ← tokens fuel last r';
                      Some (LTok (FLOAT digits decpt) pos last :: ts)
                  | None => None
                  end
            | None =>
                if Ascii.eqb c "0" && negb (String.eqb w "0") then None
                else if starts_with
                          (fun x => is_name_char x || Ascii.eqb x ".") r
                then None
                else ts ← tokens fuel (pos + width w) r;
                     Some (LTok (NUMBER (digits_value w)) pos (pos + width w)
                           :: ts)
            end
          else if is_quote c then
            let (w, r) :=
              span (fun x => negb (Ascii.eqb x c || Ascii.eqb x "\"
                                   || Ascii.eqb x "010" || Ascii.eqb x "013"))
                   rest in
            match r with
            | String q r' =>
                if Ascii.eqb q c then
                  ts ← tokens fuel (pos + width w + 2) r';
                  Some (LTok (STRING w) pos (pos + width w + 2) :: ts)
                else None
            | EmptyString => None
            end
          else if Ascii.eqb c "=" then
            match rest with
            | String c' r =>
                if Ascii.eqb c' "=" then
                  ts ← tokens fuel (pos + 2) r;
                  Some (LTok (OP "==") pos (pos + 2) :: ts)
                else None
            | EmptyString => None
            end
          else if is_op_char c then
            ts ← tokens fuel (pos + 1) rest;
            Some (LTok (OP (String c EmptyString)) pos (pos + 1) :: ts)
          else None
      end
  end.

(** A source that starts with a blank is an [IndentationError]. *)
Definition tokenize (s : string) : option (list ltoken) :=
  if starts_with is_space s then None
  else tokens (S (String.length s)) 0 s.

Definition keywords : list string :=
  ["False"; "None"; "True"; "and"; "as"; "assert"; "async"; "await";
   "break"; "class"; "continue"; "def"; "del"; "elif"; "else"; "except";
   "finally"; "for"; "from"; "global"; "if"; "import"; "in"; "is";
   "lambda"; "nonlocal"; "not"; "or"; "pass"; "raise"; "return"; "try";
   "while"; "with"; "yield"].

Definition is_keyword (w : string) : bool := existsb (String.eqb w) keywords.

Definition is_op (o : string) (t : ltoken) : bool :=
  match tok t with OP o' => String.eqb o' o | _ => false end.

Definition is_kw (w : string) (t : ltoken) : bool :=
  match tok t with NAME w' => String.eqb w' w | _ => false end.

Definition is_string (t : ltoken) : bool :=
  match tok t with STRING _ => true | _ => false end.

(** Every parsed node lies on line 1. *)
Definition at_ (first last : Z) : attributes :=
  Attributes (Some 1) (Some first) (Some 1) (Some last).

(** What a grammar rule returns: the node, the offsets where the tokens it
    consumed begin and end (parentheses included, which the node's own
    position leaves out), and the tokens that remain. *)
Definition parsed : Type := expr * Z * Z * list ltoken.

Section Grammar.

(** The rule [expression], for what stands between parentheses. *)
Variable expression : list ltoken -> option parsed.

(** atom: NAME | 'True' | 'False' | 'None' | NUMBER | STRING
          | '(' expression ')'.
    Keywords are recognised on the text of the token; the name put in the
    tree is its NFKC normal form.  Adjacent string literals (implicit
    concatenation) are left out. *)
Definition atom (ts : list ltoken) : option parsed :=
  match ts with
  | [] => None
  | t :: rest =>
      let a := at_ (tstart t) (tend t) in
      match tok t with
      | NAME w =>
          if String.eqb w "True" then
            Some (Constant (CBool true) a, tstart t, tend t, rest)
          else if String.eqb w "False" then
            Some (Constant (CBool false) a, tstart t, tend t, rest)
          else if String.eqb w "None" then
            Some (Constant CNone a, tstart t, tend t, rest)
          else if is_keyword w then None
          else Some (Name (nfkc w) Load a, tstart t, tend t, rest)
      | NUMBER z => Some (Constant (CInt z) a, tstart t, tend t, rest)
      | FLOAT digits decpt =>
          Some (Constant (CFloat digits decpt) a, tstart t, tend t, rest)
      | STRING w =>
          match rest with
          | t' :: _ =>
              if is_string t' then None
              else Some (Constant (CStr w) a, tstart t, tend t, rest)
          | [] => Some (Constant (CStr w) a, tstart t, tend t, rest)
          end
      | OP o =>
          if String.eqb o "(" then
            '(e, _, _, rest1) ← expression rest;
            match rest1 with
            | t' :: rest2 =>
                if is_op ")" t' then Some (e, tstart t, tend t', rest2)
                else None
            | [] => None
            end
          else None
      end
  end.

(** args: expression (',' expression)*, positional arguments only. *)
Fixpoint arguments (fuel : nat) (ts : list ltoken) {struct fuel}
  : option (list expr * list ltoken) :=
  match fuel with
  | O => None
  | S fuel =>
      '(e, _, _, rest) ← expression ts;
      match rest with
      | t :: rest1 =>
          if is_op "," t then
            '(es, rest2) ← arguments fuel rest1;
            Some (e :: es, rest2)
          else Some ([e], rest)
      | [] => Some ([e], rest)
      end
  end.

(** primary: primary '(' [args] ')' | atom.  A call begins where its
    function expression begins and ends after the closing parenthesis. *)
Fixpoint calls (fuel : nat) (func : expr) (first last : Z)
         (ts : list ltoken) {struct fuel} : option parsed :=
  match fuel with
  | O => None
  | S fuel =>
      match ts with
      | t :: rest =>
          if is_op "(" t then
            match rest with
            | t' :: rest1 =>
                if is_op ")" t' then
                  calls fuel (Call func [] [] (at_ first (tend t')))
                        first (tend t') rest1
                else
                  '(args, rest2) ← arguments (S (length rest)) rest;
                  match rest2 with
                  | t2 :: rest3 =>
                      if is_op ")" t2 then
                        calls fuel (Call func args [] (at_ first (tend t2)))
                              first (tend t2) rest3
                      else None
                  | [] => None
                  end
            | [] => None
            end
          else Some (func, first, last, ts)
      | [] => Some (func, first, last, ts)
      end
  end.

Definition primary (ts : list ltoken) : option parsed :=
  '(e, first, last, rest) ← atom ts;
  calls (S (length rest)) e first last rest.

(** factor: '+' factor | '-' factor | primary. *)
Fixpoint factor (fuel : nat) (ts : list ltoken) {struct fuel}
  : option parsed :=
  match fuel with
  | O => None
  | S fuel =>
      match ts with
      | t :: rest =>
          if is_op "-" t || is_op "+" t then
            '(e, _, last, rest1) ← factor fuel rest;
            Some (UnaryOp (if is_op "-" t then USub else UAdd) e
                          (at_ (tstart t) last),
                  tstart t, last, rest1)
          else primary ts
      | [] => None
      end
  end.

(** A left-associative chain [operand (op operand)*] of binary
    operators: [binop t] is the operator that token [t] denotes. *)
Fixpoint chain (operand : list ltoken -> option parsed)
         (binop : ltoken -> option operator) (fuel : nat)
         (lhs : expr) (first last : Z) (ts : list ltoken) {struct fuel}
  : option parsed :=
  match fuel with
  | O => None
  | S fuel =>
      match ts with
      | t :: rest =>
          match binop t with
          | Some op =>
              '(rhs, _, last1, rest1) ← operand rest;
              chain operand binop fuel
                    (BinOp lhs op rhs (at_ first last1)) first last1 rest1
          | None => Some (lhs, first, last, ts)
          end
      | [] => Some (lhs, first, last, ts)
      end
  end.

(** term: term '*' factor | factor. *)
Definition term (ts : list ltoken) : option parsed :=
  '(e, first, last, rest) ← factor (S (length ts)) ts;
  chain (fun ts' => factor (S (length ts')) ts')
        (fun t => if is_op "*" t then Some Mult else None)
        (S (length rest)) e first last rest.

(** sum: sum '+' term | sum '-' term | term. *)
Definition sum (ts : list ltoken) : option parsed :=
  '(e, first, last, rest) ← term ts;
  chain term
        (fun t => if is_op "+" t then Some Add
                  else if is_op "-" t then Some Sub else None)
        (S (length rest)) e first last rest.

Definition compare_op (t : ltoken) : option cmpop :=
  if is_op "<" t then Some Lt
  else if is_op ">" t then Some Gt
  else if is_op "==" t then Some Eq
  else None.

(** The pairs [(op, operand)] that follow the first operand of a
    comparison, with the offset where the last one ends. *)
Fixpoint compare_pairs (fuel : nat) (last : Z) (ts : list ltoken)
         {struct fuel} : option (list cmpop * list expr * Z * list ltoken) :=
  match fuel with
  | O => None
  | S fuel =>
      match ts with
      | t :: rest =>
          match compare_op t with
          | Some op =>
              '(e, _, last1, rest1) ← sum rest;
              '(ops, es, last2, rest2) ← compare_pairs fuel last1 rest1;
              Some (op :: ops, e :: es, last2, rest2)
          | None => Some ([], [], last, ts)
          end
      | [] => Some ([], [], last, ts)
      end
  end.

(** comparison: sum (compare_op sum)+ | sum. *)
Definition comparison (ts : list ltoken) : option parsed :=
  '(e, first, last, rest) ← sum ts;
  '(ops, es, last1, rest1) ← compare_pairs (S (length rest)) last rest;
  match ops with
  | [] => Some (e, first, last, rest1)
  | _ :: _ => Some (Compare e ops es (at_ first last1), first, last1, rest1)
  end.

(** inversion: 'not' inversion | comparison. *)
Fixpoint inversion (fuel : nat) (ts : list ltoken) {struct fuel}
  : option parsed :=
  match fuel with
  | O => None
  | S fuel =>
      match ts with
      | t :: rest =>
          if is_kw "not" t then
            '(e, _, last, rest1) ← inversion fuel rest;
            Some (UnaryOp Not e (at_ (tstart t) last), tstart t, last, rest1)
          else comparison ts
      | [] => None
      end
  end.

(** The operands [(kw operand)*] that follow the first operand of a
    boolean operation, with the offset where the last one ends. *)
Fixpoint operands (operand : list ltoken -> option parsed) (kw : string)
         (fuel : nat) (last : Z) (ts : list ltoken) {struct fuel}
  : option (list expr * Z * list ltoken) :=
  match fuel with
  | O => None
  | S fuel =>
      match ts with
      | t :: rest =>
          if is_kw kw t then
            '(e, _, last1, rest1) ← operand rest;
            '(es, last2, rest2) ← operands operand kw fuel last1 rest1;
            Some (e :: es, last2, rest2)
          else Some ([], last, ts)
      | [] => Some ([], last, ts)
      end
  end.

Definition boolean (operand : list ltoken -> option parsed) (kw : string)
           (op : boolop) (ts : list ltoken) : option parsed :=
  '(e, first, last, rest) ← operand ts;
  '(es, last1, rest1) ← operands operand kw (S (length rest)) last rest;
  match es with
  | [] => Some (e, first, last, rest1)
  | _ :: _ => Some (BoolOp op (e :: es) (at_ first last1), first, last1, rest1)
  end.

(** conjunction: inversion ('and' inversion)+ | inversion. *)
Definition conjunction : list ltoken -> option parsed :=
  boolean (fun ts => inversion (S (length ts)) ts) "and" And.

(** disjunction: conjunction ('or' conjunction)+ | conjunction. *)
Definition disjunction : list ltoken -> option parsed :=
  boolean conjunction "or" Or.

End Grammar.

(** expression: disjunction.  A nested expression follows an opening
    parenthesis, so one unit of fuel per token is enough. *)
Fixpoint expression (fuel : nat) (ts : list ltoken) {struct fuel}
  : option parsed :=
  match fuel with
  | O => None
  | S fuel => disjunction (expression fuel) ts
  end.

(** [ast.parse(source, mode="eval")]: the whole source is one expression. *)
Definition parse (source : string) : option mod_ :=
  ts ← tokenize source;
  '(e, _, _, rest) ← expression (S (length ts)) ts;
  match rest with
  | [] => Some (Expression e)
  | _ :: _ => None
  end.

End Parser.

Definition ast_parse (source : string) : outcome mod_ :=
  match Parser.parse source with
  | Some tree => Return tree
  | None => Unmodelled
  end.

(** ** [ExpressionMatcher] *)

Module ExpressionMatcher.

(** The object [__init__] builds.  [code] is the compiled expression that
    the closure [matches] holds. *)
Record t : Type := Make {
  expression : string;
  ast : mod_;
  code : mod_
}.

(** [__init__] from the parsed tree on: rewrite, fix the locations of the
    new nodes, compile. *)
Definition init_parsed (expression : string) (parsed : mod_) : outcome t :=
  transformed ← Transformer.visit (Transformer.Make (Some expression)) parsed;
  let transformed := fix_missing_locations transformed in
  compiled ← compile transformed;
  Return (Make expression transformed compiled).

(** [not expression]: [None] and the empty string are false. *)
Definition not_ (expression : option string) : bool :=
  match expression with
  | None => true
  | Some s => String.eqb s EmptyString
  end.

Definition __init__ (expression : option string) : outcome t :=
  let expression :=
    if not_ expression then "anything()" else default EmptyString expression in
  parsed ← ast_parse expression;
  init_parsed expression parsed.

(** [matches(items)]: [eval(compiled, {}, {"items": items})]. *)
Definition matches (self : t) (items : value) : outcome value :=
  eval (code self) {[ "items" := items ]}.

Definition __call__ (self : t) (items : value) : outcome value :=
  matches self items.

Definition __repr__ (self : t) : string :=
  "ExpressionMatcher('" ++ expression self ++ "')".

End ExpressionMatcher.

(** Compile an expression and apply it to a collection. *)
Definition run (expression : option string) (items : value) : outcome value :=
  m ← ExpressionMatcher.__init__ expression;
  ExpressionMatcher.__call__ m items.

(** ** The vocabulary of the specification *)

(** The collections a matcher is applied to. *)
Definition supported (items : value) : Prop :=
  match items with
  | VStr _ | VList _ | VSet _ => True
  | _ => False
  end.

(** [key] is contained in [items]: it is an element of a set or of a
    sequence of strings, and it occurs in a raw text. *)
Definition contained (key : string) (items : value) : Prop :=
  match items with
  | VSet elems => key ∈ elems
  | VList l => key ∈ l
  | VStr t => exists before after : string, t = before ++ key ++ after
  | _ => False
  end.

(** A name of the model that is not a keyword: what the tokenizer returns
    as one NAME token and the parser as an [ast.Name]. *)
Definition is_identifier (x : string) : bool :=
  Parser.starts_name x
  && String.eqb (snd (Parser.name_span 0 x)) EmptyString
  && negb (Parser.is_keyword x).

(** A name made of ASCII letters, digits and underscores only. *)
Definition ascii_name (x : string) : bool :=
  forallb Parser.is_name_char (list_ascii_of_string x).



(** [source] compiles. *)
Definition compiles (source : string) : Prop :=
  exists m, ExpressionMatcher.__init__ (Some source) = Return m.

(** The two sides of De Morgan's law, as the source texts built from the
    texts of [a] and [b]. *)
Definition not_or_text (a b : string) : string :=
  "not (" ++ a ++ " or " ++ b ++ ")".

Definition and_not_text (a b : string) : string :=
  "(not " ++ a ++ ") and (not " ++ b ++ ")".

(** The same two sides as trees, with the trees of [a] and [b] as operands. *)
Definition not_or_tree (A B : expr) (a1 a2 : attributes) : mod_ :=
  Expression (UnaryOp Not (BoolOp Or [A; B] a1) a2).

Definition and_not_tree (A B : expr) (a1 a2 a3 : attributes) : mod_ :=
  Expression (BoolOp And [UnaryOp Not A a1; UnaryOp Not B a2] a3).

(** The three leaves that [generic_visit] builds. *)
Definition membership_test (key : string) : expr :=
  Compare (Constant (CStr key) no_attributes) [In]
          [Name "items" Load no_attributes] no_attributes.

Definition emptiness_check : expr :=
  UnaryOp Not (Name "items" Load no_attributes) no_attributes.

Definition always_true : expr := Constant (CBool true) no_attributes.

(** The namespace in which [matches] evaluates the compiled expression. *)
Definition namespace (items : value) : gmap string value :=
  {[ "items" := items ]}.

(** The object built from a rewritten tree [body']. *)
Definition matcher_of (text : string) (body' : expr) : ExpressionMatcher.t :=
  let tree := Expression (fix_locations 1 0 1 0 body') in
  ExpressionMatcher.Make text tree tree.

(** De Morgan's law on texts: whenever [a] and [b] compile, the two texts
    built from them compile to predicates that agree on every supported
    collection. *)
Definition de_morgan_texts (a b : string) : Prop :=
  compiles a -> compiles b ->
  forall items : value,
    supported items ->
    run (Some (not_or_text a b)) items = run (Some (and_not_text a b)) items.

(** ** Trees and matchers of some sources *)

(** The tree of ["foo or empty()"] and the matcher compiled from it. *)
Definition foo_or_empty : mod_ :=
  Expression (BoolOp Or [Name "foo" Load (Parser.at_ 0 3);
                         Call (Name "empty" Load (Parser.at_ 7 12)) [] []
                              (Parser.at_ 7 14)]
                     (Parser.at_ 0 14)).

Definition foo_or_empty_matcher : ExpressionMatcher.t :=
  matcher_of "foo or empty()"
             (BoolOp Or [membership_test "foo"; emptiness_check]
                     (Parser.at_ 0 14)).

(** The tree of ["foo and bar"] and the matcher compiled from it. *)
Definition foo_and_bar : mod_ :=
  Expression (BoolOp And [Name "foo" Load (Parser.at_ 0 3);
                          Name "bar" Load (Parser.at_ 8 11)]
                     (Parser.at_ 0 11)).

Definition foo_and_bar_matcher : ExpressionMatcher.t :=
  matcher_of "foo and bar"
             (BoolOp And [membership_test "foo"; membership_test "bar"]
                     (Parser.at_ 0 11)).

(** The trees of ["x or y"] and of ["z"]. *)
Definition x_or_y : expr :=
  BoolOp Or [Name "x" Load (Parser.at_ 0 1); Name "y" Load (Parser.at_ 5 6)]
         (Parser.at_ 0 6).

Definition z_alone : expr := Name "z" Load (Parser.at_ 0 1).

(** ** The grammar of [generic_visit] and the command line *)

(** The trees that [generic_visit] lets through: a name that is read, a
    literal, [empty()] and [anything()] without argument, and [and], [or]
    and [not] over such trees. *)
Fixpoint in_grammar (node : expr) {struct node} : bool :=
  match node with
  | Name _ Load _ => true
  | Constant _ _ => true
  | Call (Name fid _ _) [] [] _ =>
      String.eqb fid "empty" || String.eqb fid "anything"
  | BoolOp _ values _ => forallb in_grammar values
  | UnaryOp Not operand _ => in_grammar operand
  | _ => false
  end.

(** The trees that [generic_visit] returns are made of six kinds of nodes:
    [key in items], [not items], [True], and [not], [and], [or] over them. *)
Fixpoint is_predicate_tree (node : expr) {struct node} : bool :=
  match node with
  | Compare (Constant (CStr _) _) [In] [Name id Load _] _ =>
      String.eqb id "items"
  | Constant (CBool true) _ => true
  | UnaryOp Not (Name id Load _) _ => String.eqb id "items"
  | UnaryOp Not operand _ => is_predicate_tree operand
  | BoolOp _ values _ => forallb is_predicate_tree values
  | _ => false
  end.

(** Every [and] / [or] that [generic_visit] walks through has two operands
    or more, as in every tree that [ast.parse] returns. *)
Fixpoint wide_boolops (node : expr) {struct node} : bool :=
  match node with
  | BoolOp _ values _ =>
      (2 <=? length values)%nat && forallb wide_boolops values
  | UnaryOp Not operand _ => wide_boolops operand
  | _ => true
  end.

(** Every node that [generic_visit] walks through has a line and a column,
    as in every tree that [ast.parse] returns. *)
Fixpoint located (node : expr) {struct node} : bool :=
  match lineno (attrs node), col_offset (attrs node) with
  | Some _, Some _ =>
      match node with
      | BoolOp _ values _ => forallb located values
      | UnaryOp Not operand _ => located operand
      | _ => true
      end
  | _, _ => false
  end.

(** The messages of the errors that [generic_visit] raises. *)
Definition messages : list string :=
  ["invalid syntax";
   "invalid syntax, unknown function";
   "invalid syntax, unsupported operation";
   "invalid syntax, empty() does not accept any argument";
   "invalid syntax, anything() does not accept any argument"].

(** The value of an [and] / [or] over booleans. *)
Definition combine (op : boolop) (bs : list bool) : bool :=
  match op with
  | And => forallb (fun b => b) bs
  | Or => existsb (fun b => b) bs
  end.

(** How the script ends: it prints one line and exits with a status, or an
    exception of the matcher goes uncaught, or [sys.argv] is too short, or
    the run leaves the modelled fragment of Python. *)
Inductive ending : Type :=
| Exit (printed : string) (status : Z)
| Uncaught (e : exn)
| ArgvIndexError
| OutsideModel.

(** The script under [if __name__ == "__main__"], for [sys.argv = argv]:
    the expression is [argv[1]], the items are the list [argv[2:]]. *)
Definition main (argv : list string) : ending :=
  match argv with
  | _ :: expression :: items =>
      match ExpressionMatcher.__init__ (Some expression) with
      | Return matches =>
          match ExpressionMatcher.__call__ matches (VList items) with
          | Return is_match =>
              Exit (if truthy is_match then "✅" else "❌")
                   (if truthy is_match then 0 else 1)
          | Raise e => Uncaught e
          | Unmodelled => OutsideModel
          end
      | Raise e => Uncaught e
      | Unmodelled => OutsideModel
      end
  | _ => ArgvIndexError
  end.

(** The nodes that [generic_visit] sends to its default arm: every node
    that is not a name that is read, a literal, a call of a name, an [and],
    an [or], a [not], or a binary operation on a name. *)
Definition default_arm (node : expr) : bool :=
  match node with
  | Name _ Load _ | Constant _ _ | BoolOp _ _ _ | UnaryOp Not _ _ => false
  | Call (Name _ _ _) _ _ _ => false
  | BinOp (Name _ _ _) _ _ _ => false
  | _ => true
  end.

(** The trees without [not] and without [empty()]. *)
Fixpoint positive (node : expr) {struct node} : bool :=
  match node with
  | BoolOp _ values _ => forallb positive values
  | UnaryOp _ _ _ => false
  | Call (Name fid _ _) _ _ _ => negb (String.eqb fid "empty")
  | _ => true
  end.

(** A syntax error of the transformer: it carries the expression text and
    one of the five messages. *)
Definition transformer_error (self : Transformer.t) (r : outcome expr) : Prop :=
  exists (msg : string) (l c : Z),
    r = Raise (SyntaxError msg l c (Transformer.expression self))
    /\ List.In msg messages.

(** The matcher compiled from the identifier [x] alone returns true exactly
    on the collections that contain [x]. *)
Definition matches_iff_contained (x : string) : Prop :=
  forall items : value,
    supported items ->
    exists b : bool,
      run (Some x) items = Return (VBool b)
      /\ (b = true <-> contained x items).

(** The matcher compiled from the number literal [source], whose value is
    the integer [n], returns true exactly on the collections that contain
    the decimal numeral of [n]. *)
Definition matches_iff_decimal_contained (source : string) (n : Z) : Prop :=
  forall items : value,
    supported items ->
    exists b : bool,
      run (Some source) items = Return (VBool b)
      /\ (b = true <-> contained (str (CInt n)) items).

(** ** Induction on expressions *)

Section ExprInd.

Variable P : expr -> Prop.

Hypothesis HBoolOp : forall op values a,
    Forall P values -> P (BoolOp op values a).
Hypothesis HBinOp : forall lhs op rhs a, P lhs -> P rhs -> P (BinOp lhs op rhs a).
Hypothesis HUnaryOp : forall op operand a, P operand -> P (UnaryOp op operand a).
Hypothesis HIfExp : forall test body orelse a,
    P test -> P body -> P orelse -> P (IfExp test body orelse a).
Hypothesis HCompare : forall lhs ops comparators a,
    P lhs -> Forall P comparators -> P (Compare lhs ops comparators a).
Hypothesis HCall : forall func args keywords a,
    P func -> Forall P args -> Forall (fun kw => P (snd kw)) keywords ->
    P (Call func args keywords a).
Hypothesis HConstant : forall value a, P (Constant value a).
Hypothesis HAttribute : forall value attr ctx a,
    P value -> P (Attribute value attr ctx a).
Hypothesis HName : forall id ctx a, P (Name id ctx a).
Hypothesis HTuple : forall elts ctx a, Forall P elts -> P (Tuple elts ctx a).

Fixpoint expr_children_ind (node : expr) : P node :=
  let all :=
    fix all (es : list expr) : Forall P es :=
      match es with
      | [] => ListDef.Forall_nil P
      | e :: es' => ListDef.Forall_cons P e es' (expr_children_ind e) (all es')
      end in
  match node with
  | BoolOp op values a => HBoolOp op values a (all values)
  | BinOp lhs op rhs a =>
      HBinOp lhs op rhs a (expr_children_ind lhs) (expr_children_ind rhs)
  | UnaryOp op operand a => HUnaryOp op operand a (expr_children_ind operand)
  | IfExp test body orelse a =>
      HIfExp test body orelse a (expr_children_ind test)
             (expr_children_ind body) (expr_children_ind orelse)
  | Compare lhs ops comparators a =>
      HCompare lhs ops comparators a (expr_children_ind lhs) (all comparators)
  | Call func args keywords a =>
      HCall func args keywords a (expr_children_ind func) (all args)
            ((fix allkw (kws : list (option string * expr))
                : Forall (fun kw => P (snd kw)) kws :=
                match kws with
                | [] => ListDef.Forall_nil _
                | kw :: kws' =>
                    ListDef.Forall_cons _ kw kws' (expr_children_ind (snd kw))
                                (allkw kws')
                end) keywords)
  | Constant value a => HConstant value a
  | Attribute value attr ctx a =>
      HAttribute value attr ctx a (expr_children_ind value)
  | Name id ctx a => HName id ctx a
  | Tuple elts ctx a => HTuple elts ctx a (all elts)
  end.

End ExprInd.

(** ** Facts about the runtime model *)

Lemma prefix_app (s t : string) :
  String.prefix s t = true <-> exists after : string, t = s ++ after.
Proof.
  revert t. induction s as [|a s IH]; intros t.
  - split; [intros _; exists t; reflexivity | now destruct t].
  - destruct t as [|b t]; simpl.
    + split; [discriminate | intros [after H]; discriminate].
    + destruct (ascii_dec a b) as [->|Hne].
      * rewrite IH. split; intros [after H]; exists after.
        -- now rewrite H.
        -- now injection H.
      * split; [discriminate | intros [after H]; injection H; congruence].
Qed.

Lemma str_contains_spec (s t : string) :
  str_contains s t = true
  <-> exists before after : string, t = before ++ s ++ after.
Proof.
  induction t as [|c t IH]; cbn [str_contains]; rewrite orb_true_iff.
  - split.
    + intros [H|H]; [|discriminate].
      apply prefix_app in H as [after H]. now exists EmptyString, after.
    + intros [before [after H]]. left. apply prefix_app.
      destruct before; [now exists after | discriminate].
  - split.
    + intros [H|H].
      * apply prefix_app in H as [after H]. now exists EmptyString, after.
      * apply IH in H as [before [after H]].
        exists (String c before), after. simpl. now rewrite H.
    + intros [[|c' before] [after H]].
      * left. apply prefix_app. now exists after.
      * right. apply IH. exists before, after. simpl in H. now injection H.
Qed.

(** [key in items] with a string key: defined on every supported collection,
    and true exactly when the key is contained in it. *)
Lemma contains_spec (items : value) (key : string) :
  supported items ->
  exists b : bool,
    contains items (VStr key) = Return b /\ (b = true <-> contained key items).
Proof.
  destruct items; simpl; try contradiction; intros _.
  - eexists; split; [reflexivity | apply str_contains_spec].
  - eexists; split; [reflexivity | apply bool_decide_eq_true].
  - eexists; split; [reflexivity | apply bool_decide_eq_true].
Qed.

(** [not items] is true exactly when the collection has no element. *)
Lemma truthy_len (items : value) :
  supported items -> (negb (truthy items) = true <-> len items = Some O).
Proof.
  destruct items; simpl; try contradiction; intros _.
  - destruct (String.length s); simpl; split; congruence.
  - destruct (length l); simpl; split; congruence.
  - destruct (size s); simpl; split; congruence.
Qed.

(** Positions play no part in validation or evaluation. *)
Lemma validate_fix_locations (node : expr) :
  forall l c el ec, validate (fix_locations l c el ec node) = validate node.
Proof.
  induction node using expr_children_ind; intros l c el ec;
    try reflexivity.
  - simpl. rewrite length_map. destruct (length values <? 2)%nat; [reflexivity|].
    f_equal. induction H as [|e es He _ IH]; simpl; [reflexivity|].
    now rewrite He, IH.
  - destruct op; simpl; try reflexivity. apply IHnode.
  - destruct ops as [|[] [|? ?]]; try reflexivity.
    destruct comparators as [|r [|? ?]]; try reflexivity.
    simpl. rewrite IHnode. apply Forall_inv in H. now rewrite H.
Qed.

Lemma eval_fix_locations (locals : gmap string value) (node : expr) :
  forall l c el ec,
    eval_expr locals (fix_locations l c el ec node) = eval_expr locals node.
Proof.
  induction node using expr_children_ind; intros l c el ec;
    try reflexivity.
  - simpl. induction H as [|e es He _ IH]; simpl; [reflexivity|].
    rewrite He. destruct (eval_expr locals e); try reflexivity. simpl.
    destruct es as [|e' es']; [reflexivity|].
    simpl map at 1. cbv beta. change (fix_locations _ _ _ _ e' :: map _ es')
      with (map (fix_locations (fill (lineno a) l) (fill (col_offset a) c)
                               (fill (end_lineno a) el)
                               (fill (end_col_offset a) ec)) (e' :: es')).
    now rewrite IH.
  - destruct op; simpl; try reflexivity. now rewrite IHnode.
  - destruct ops as [|[] [|? ?]]; try reflexivity.
    destruct comparators as [|r [|? ?]]; try reflexivity.
    simpl. rewrite IHnode. apply Forall_inv in H. now rewrite H.
Qed.

(** ** The rewritten tree *)

Lemma lookup_items (items : value) : namespace items !! "items" = Some items.
Proof. apply lookup_singleton_eq. Qed.

Lemma eval_membership_test (items : value) (key : string) :
  eval_expr (namespace items) (membership_test key)
  = b ← contains items (VStr key); Return (VBool b).
Proof. cbn [eval_expr membership_test]. now rewrite lookup_items. Qed.

Lemma eval_emptiness_check (items : value) :
  eval_expr (namespace items) emptiness_check
  = Return (VBool (negb (truthy items))).
Proof. cbn [eval_expr emptiness_check]. now rewrite lookup_items. Qed.

(** The ways in which [generic_visit] returns: a leaf is rewritten, or an
    [and], [or] or [not] keeps its shape over rewritten operands. *)
Lemma generic_visit_Return (self : Transformer.t) (node node' : expr) :
  Transformer.generic_visit self node = Return node' ->
  (exists id a, node = Name id Load a /\ node' = membership_test id)
  \/ (exists c a, node = Constant c a /\ node' = membership_test (str c))
  \/ (exists ctx fa a,
        node = Call (Name "empty" ctx fa) [] [] a /\ node' = emptiness_check)
  \/ (exists ctx fa a,
        node = Call (Name "anything" ctx fa) [] [] a /\ node' = always_true)
  \/ (exists op values values' a,
        node = BoolOp op values a
        /\ mapM (Transformer.generic_visit self) values = Return values'
        /\ node' = BoolOp op values' a)
  \/ (exists operand operand' a,
        node = UnaryOp Not operand a
        /\ Transformer.generic_visit self operand = Return operand'
        /\ node' = UnaryOp Not operand' a).
Proof.
  assert (Herr : forall (m1 m2 : outcome Z) msg (f : Z -> Z),
             (l ← m1; c ← m2; Transformer.error self msg l (f c))
             <> Return node').
  { intros [l| |] [c| |] msg f; discriminate. }
  destruct node as [op values a | lhs op rhs a | op operand a
                   | test body orelse a | lhs ops comparators a
                   | func args keywords a | c a | v attr ctx a | id ctx a
                   | elts ctx a];
    cbn [Transformer.generic_visit]; intros H;
    try (exfalso; revert H; apply (Herr _ _ _ (fun c => c + 1))).
  - right; right; right; right; left.
    destruct (mapM (Transformer.generic_visit self) values) as [vs| |] eqn:E;
      try discriminate.
    injection H as <-. now exists op, values, vs, a.
  - destruct lhs; try (exfalso; revert H; apply (Herr _ _ _ (fun c => c + 1))).
    exfalso; revert H; apply (Herr _ _ _ (fun c => c)).
  - destruct op; try (exfalso; revert H; apply (Herr _ _ _ (fun c => c + 1))).
    do 5 right.
    destruct (Transformer.generic_visit self operand) as [e| |] eqn:E;
      try discriminate.
    injection H as <-. now exists operand, e, a.
  - destruct func as [| | | | | | | | id ctx fa |];
      try (exfalso; revert H; apply (Herr _ _ _ (fun c => c + 1))).
    destruct ((id =? "empty")%string && Transformer.is_nil args
              && Transformer.is_nil keywords) eqn:E1.
    { apply andb_prop in E1 as [E1 Hk]. apply andb_prop in E1 as [Hid Ha].
      apply String.eqb_eq in Hid as ->.
      destruct args; [|discriminate]. destruct keywords; [|discriminate].
      injection H as <-. right; right; left. now exists ctx, fa, a. }
    destruct ((id =? "anything")%string && Transformer.is_nil args
              && Transformer.is_nil keywords) eqn:E2.
    { apply andb_prop in E2 as [E2 Hk]. apply andb_prop in E2 as [Hid Ha].
      apply String.eqb_eq in Hid as ->.
      destruct args; [|discriminate]. destruct keywords; [|discriminate].
      injection H as <-. right; right; right; left. now exists ctx, fa, a. }
    destruct ((id =? "empty")%string || (id =? "anything")%string);
      exfalso; revert H; apply (Herr _ _ _ (fun c => c)).
  - injection H as <-. right; left. now exists c, a.
  - destruct ctx; try (exfalso; revert H; apply (Herr _ _ _ (fun c => c + 1))).
    injection H as <-. left. now exists id, a.
Qed.

Lemma mapM_Return_Forall {A B : Type} (f : A -> outcome B) (Q : B -> Prop)
      (l : list A) :
  Forall (fun a => forall b, f a = Return b -> Q b) l ->
  forall l', mapM f l = Return l' -> Forall Q l'.
Proof.
  induction 1 as [|a l Ha _ IH]; simpl; intros l' H.
  - injection H as <-. constructor.
  - destruct (f a) as [b| |] eqn:Eb; try discriminate. simpl in H.
    destruct (mapM f l) as [bs| |]; try discriminate.
    injection H as <-. constructor; [now apply Ha | now apply IH].
Qed.

Lemma mapM_validate_Forall (vs : list expr) (us : list unit) :
  mapM validate vs = Return us -> Forall (fun e => validate e = Return tt) vs.
Proof.
  revert us. induction vs as [|e vs IH]; simpl; intros us H; [constructor|].
  destruct (validate e) as [[]| |] eqn:Ee; try discriminate. simpl in H.
  destruct (mapM validate vs) as [bs| |]; try discriminate.
  constructor; [exact Ee | now apply (IH bs)].
Qed.

(** Over operands that evaluate to booleans, [and] / [or] give a boolean. *)
Lemma eval_values_bool (ev : expr -> outcome value) (op : boolop)
      (vs : list expr) :
  vs <> [] ->
  Forall (fun e => exists b : bool, ev e = Return (VBool b)) vs ->
  exists b : bool, eval_values ev op vs = Return (VBool b).
Proof.
  intros Hne H. induction H as [|e vs [b He] Hvs IH]; [congruence|].
  simpl. rewrite He. simpl. destruct vs as [|e' vs']; [now exists b|].
  destruct (stops op (VBool b)); [now exists b|].
  apply IH. discriminate.
Qed.

(** A tree that [generic_visit] returned and [compile] accepted evaluates
    to a boolean on every supported collection. *)
Lemma rewritten_evaluates (items : value) (node : expr) :
  supported items ->
  forall (self : Transformer.t) (node' : expr),
    Transformer.generic_visit self node = Return node' ->
    validate node' = Return tt ->
    exists b : bool, eval_expr (namespace items) node' = Return (VBool b).
Proof.
  intros Hs.
  induction node using expr_children_ind; intros self node' Hv Hc;
    apply generic_visit_Return in Hv
      as [(k & a' & Hn & ->) | [(k & a' & Hn & ->) | [(x & fa & a' & Hn & ->)
          | [(x & fa & a' & Hn & ->) | [(o & vs & vs' & a' & Hn & Hm & ->)
          | (e & e' & a' & Hn & He & ->)]]]]];
    try discriminate Hn;
    try (rewrite eval_membership_test;
         match goal with
         | |- context [contains items (VStr ?key)] =>
             destruct (contains_spec items key Hs) as (b & -> & _)
         end; now exists b);
    try (rewrite eval_emptiness_check; now eexists);
    try (now exists true).
  - injection Hn as -> -> ->. cbn [eval_expr].
    cbn [validate] in Hc.
    destruct (length vs' <? 2)%nat eqn:Hlen; [discriminate|].
    destruct (mapM validate vs') as [us| |] eqn:Hus; try discriminate.
    apply mapM_validate_Forall in Hus.
    apply eval_values_bool.
    + intros ->. discriminate.
    + assert (Hall : Forall (fun e' => validate e' = Return tt ->
                 exists b : bool,
                   eval_expr (namespace items) e' = Return (VBool b)) vs').
      { eapply mapM_Return_Forall; [|exact Hm].
        eapply Forall_impl; [exact H|]. intros e IHe b Hb. now apply (IHe self). }
      clear - Hall Hus. induction Hall as [|e es He _ IH]; [constructor|].
      apply Forall_cons_1 in Hus as [H1 H2].
      constructor; [now apply He | now apply IH].
  - injection Hn as -> -> ->. cbn [eval_expr]. cbn [validate] in Hc.
    destruct (IHnode self e' He Hc) as [b ->]. now eexists.
Qed.

(** Whether [generic_visit] returns, and what, does not depend on the
    expression text kept for error messages. *)
Lemma generic_visit_any_self (s s' : Transformer.t) (node : expr) :
  forall node',
    Transformer.generic_visit s node = Return node' ->
    Transformer.generic_visit s' node = Return node'.
Proof.
  induction node using expr_children_ind; intros node' Hv;
    apply generic_visit_Return in Hv
      as [(k & a' & Hn & ->) | [(k & a' & Hn & ->) | [(x & fa & a' & Hn & ->)
          | [(x & fa & a' & Hn & ->) | [(o & vs & vs' & a' & Hn & Hm & ->)
          | (e & e' & a' & Hn & He & ->)]]]]];
    try discriminate Hn; try (injection Hn as -> -> ->);
    try (injection Hn as -> ->); try (injection Hn as -> -> -> ->);
    try reflexivity.
  - cbn [Transformer.generic_visit].
    assert (Hs' : mapM (Transformer.generic_visit s') vs = Return vs').
    { clear - H Hm. revert vs' Hm.
      induction H as [|e es He _ IH]; simpl; intros vs' Hm; [exact Hm|].
      destruct (Transformer.generic_visit s e) as [e'| |] eqn:Ee;
        try discriminate.
      rewrite (He e' eq_refl). simpl in *.
      destruct (mapM (Transformer.generic_visit s) es) as [es'| |];
        try discriminate.
      now rewrite (IH es' eq_refl). }
    now rewrite Hs'.
  - cbn [Transformer.generic_visit]. now rewrite (IHnode e' He).
Qed.

(** ** Compiling and calling *)

Lemma init_parsed_Return (text : string) (parsed : mod_)
      (m : ExpressionMatcher.t) :
  ExpressionMatcher.init_parsed text parsed = Return m ->
  exists body body' : expr,
    parsed = Expression body
    /\ Transformer.generic_visit (Transformer.Make (Some text)) body
       = Return body'
    /\ validate body' = Return tt
    /\ m = matcher_of text body'.
Proof.
  destruct parsed as [body]. unfold ExpressionMatcher.init_parsed.
  cbn [Transformer.visit]. intros H.
  destruct (Transformer.generic_visit _ body) as [body'| |] eqn:Hv;
    try discriminate.
  cbn in H. rewrite validate_fix_locations in H.
  destruct (validate body') as [[]| |] eqn:Hc; try discriminate.
  injection H as <-. now exists body, body'.
Qed.

Lemma init_parsed_intro (self : Transformer.t) (text : string)
      (body body' : expr) :
  Transformer.generic_visit self body = Return body' ->
  validate body' = Return tt ->
  ExpressionMatcher.init_parsed text (Expression body)
  = Return (matcher_of text body').
Proof.
  intros Hv Hc. unfold ExpressionMatcher.init_parsed. cbn [Transformer.visit].
  rewrite (generic_visit_any_self self _ body body' Hv). cbn.
  now rewrite validate_fix_locations, Hc.
Qed.

Lemma call_matcher_of (text : string) (body' : expr) (items : value) :
  ExpressionMatcher.__call__ (matcher_of text body') items
  = eval_expr (namespace items) body'.
Proof.
  unfold ExpressionMatcher.__call__, ExpressionMatcher.matches, matcher_of.
  cbn [ExpressionMatcher.code eval]. apply eval_fix_locations.
Qed.

(** Every compiled expression returns a boolean on a supported collection. *)
Lemma compiled_evaluates (text : string) (parsed : mod_)
      (m : ExpressionMatcher.t) (items : value) :
  ExpressionMatcher.init_parsed text parsed = Return m ->
  supported items ->
  exists b : bool, ExpressionMatcher.__call__ m items = Return (VBool b).
Proof.
  intros H Hs. apply init_parsed_Return in H as (body & body' & -> & Hv & Hc & ->).
  rewrite call_matcher_of. now apply (rewritten_evaluates items body Hs _ _ Hv).
Qed.

(** [run] on a source that is not empty and that the parser accepts. *)
Lemma run_parsed (text : string) (body body' : expr) (items : value) :
  text <> EmptyString ->
  Parser.parse text = Some (Expression body) ->
  Transformer.generic_visit (Transformer.Make (Some text)) body = Return body' ->
  validate body' = Return tt ->
  ExpressionMatcher.__init__ (Some text) = Return (matcher_of text body')
  /\ run (Some text) items = eval_expr (namespace items) body'.
Proof.
  intros Hne Hp Hv Hc.
  assert (Hi : ExpressionMatcher.__init__ (Some text)
               = Return (matcher_of text body')).
  { unfold ExpressionMatcher.__init__, ExpressionMatcher.not_.
    destruct (String.eqb_spec text EmptyString) as [->|_]; [congruence|].
    change (default EmptyString (Some text)) with text. unfold ast_parse. rewrite Hp.
    cbn [mbind outcome_bind].
    now apply (init_parsed_intro _ _ _ _ Hv). }
  split; [exact Hi|]. unfold run. rewrite Hi. cbn [mbind outcome_bind].
  apply call_matcher_of.
Qed.

(** ** Parsing a name *)

Lemma name_start_not_space (c : ascii) :
  Parser.is_name_start c = true -> Parser.is_space c = false.
Proof. destruct c as [[] [] [] [] [] [] [] []]; vm_compute; congruence. Qed.

Lemma letter_not_space (c : ascii) (rest : string) :
  Parser.starts_letter (String c rest) = true -> Parser.is_space c = false.
Proof.
  destruct c as [[] [] [] [] [] [] [] []]; vm_compute; intros H;
    first [reflexivity | discriminate H].
Qed.

Lemma name_char_not_letter (c : ascii) (rest : string) :
  Parser.is_name_char c = true -> Parser.letter_at (String c rest) = None.
Proof.
  destruct c as [[] [] [] [] [] [] [] []]; vm_compute; intros H;
    first [reflexivity | discriminate H].
Qed.

Lemma append_cons (c : ascii) (w r : string) :
  String c w ++ r = String c (w ++ r).
Proof. reflexivity. Qed.

Lemma append_empty (s : string) : s ++ EmptyString = s.
Proof.
  induction s as [|c s IH]; [reflexivity|]. now rewrite append_cons, IH.
Qed.

(** [name_span] splits its argument. *)
Lemma name_span_app (s : string) :
  forall take : nat,
    fst (Parser.name_span take s) ++ snd (Parser.name_span take s) = s.
Proof.
  induction s as [|c s IH]; intros take; [reflexivity|].
  cbn [Parser.name_span]. destruct take as [|n].
  - destruct (Parser.is_name_char c).
    + specialize (IH O). destruct (Parser.name_span 0 s). cbn [fst snd] in *.
      now rewrite append_cons, IH.
    + destruct (Parser.letter_at (String c s)) as [[raw normal]|];
        [|reflexivity].
      specialize (IH (String.length raw - 1)%nat).
      destruct (Parser.name_span _ s). cbn [fst snd] in *.
      now rewrite append_cons, IH.
  - specialize (IH n). destruct (Parser.name_span n s). cbn [fst snd] in *.
    now rewrite append_cons, IH.
Qed.

Lemma whole_name (x : string) :
  snd (Parser.name_span 0 x) = EmptyString ->
  Parser.name_span 0 x = (x, EmptyString).
Proof.
  intros H. pose proof (name_span_app x O) as Happ. rewrite H in Happ.
  rewrite append_empty in Happ.
  destruct (Parser.name_span 0 x) as [w r]. simpl in *. now subst.
Qed.

(** A name of ASCII characters is its own normal form. *)
Lemma nfkc_ascii (x : string) : ascii_name x = true -> Parser.nfkc x = x.
Proof.
  unfold ascii_name, Parser.nfkc.
  induction x as [|c x IH]; [reflexivity|]. cbn [list_ascii_of_string forallb].
  intros H. apply andb_prop in H as [Hc Hx]. cbn [Parser.nfkc_from].
  rewrite (name_char_not_letter c x Hc). now rewrite (IH Hx).
Qed.

Lemma not_keyword (x k : string) :
  Parser.is_keyword x = false -> List.In k Parser.keywords -> String.eqb x k = false.
Proof.
  unfold Parser.is_keyword. intros H Hin.
  destruct (String.eqb x k) eqn:E; [|reflexivity].
  rewrite <- H. symmetry. apply existsb_exists. now exists k.
Qed.

(** The step of the tokenizer on a name. *)
Lemma tokens_name (fuel : nat) (pos : Z) (c : ascii) (r w rest : string) :
  Parser.starts_name (String c r) = true ->
  Parser.name_span 0 (String c r) = (w, rest) ->
  Parser.starts_with Parser.is_quote rest = false ->
  Parser.tokens (S fuel) pos (String c r)
  = ts ← Parser.tokens fuel (pos + Parser.width w) rest;
    Some (Parser.LTok (Parser.NAME w) pos (pos + Parser.width w) :: ts).
Proof.
  intros Hc Hspan Hq.
  assert (Hs : Parser.is_space c = false).
  { unfold Parser.starts_name in Hc. apply orb_prop in Hc as [Hc|Hc].
    - now apply name_start_not_space.
    - now apply (letter_not_space c r). }
  cbn [Parser.tokens]. now rewrite Hs, Hc, Hspan, Hq.
Qed.

Lemma tokenize_identifier (x : string) :
  is_identifier x = true ->
  Parser.tokenize x
  = Some [Parser.LTok (Parser.NAME x) 0 (Parser.width x)].
Proof.
  unfold is_identifier. intros H.
  apply andb_prop in H as [H _]. apply andb_prop in H as [Hstart Hall].
  apply String.eqb_eq in Hall. apply whole_name in Hall.
  destruct x as [|c r]; [discriminate|].
  assert (Hs : Parser.is_space c = false).
  { unfold Parser.starts_name in Hstart. apply orb_prop in Hstart as [Hc|Hc].
    - now apply name_start_not_space.
    - now apply (letter_not_space c r). }
  unfold Parser.tokenize. cbn [Parser.starts_with String.length].
  rewrite Hs.
  rewrite (tokens_name _ 0 c r (String c r) EmptyString Hstart Hall eq_refl).
  reflexivity.
Qed.

Section OneName.

Variable rec : list Parser.ltoken -> option Parser.parsed.
Variables (x : string) (first last : Z).
Hypothesis Hk : Parser.is_keyword x = false.

Let t : Parser.ltoken := Parser.LTok (Parser.NAME x) first last.
Let e : expr := Name (Parser.nfkc x) Load (Parser.at_ first last).

Lemma atom_name : Parser.atom rec [t] = Some (e, first, last, []).
Proof.
  unfold Parser.atom, t. cbn [Parser.tok Parser.tstart Parser.tend].
  rewrite !(not_keyword x _ Hk), Hk by (vm_compute; tauto). reflexivity.
Qed.

Lemma primary_name : Parser.primary rec [t] = Some (e, first, last, []).
Proof. unfold Parser.primary. rewrite atom_name. reflexivity. Qed.

Lemma factor_name (fuel : nat) :
  Parser.factor rec (S fuel) [t] = Some (e, first, last, []).
Proof. cbn [Parser.factor]. unfold t at 1 2. cbn [Parser.is_op Parser.tok orb]. apply primary_name. Qed.

Lemma term_name : Parser.term rec [t] = Some (e, first, last, []).
Proof. unfold Parser.term. cbn [length]. rewrite factor_name. reflexivity. Qed.

Lemma sum_name : Parser.sum rec [t] = Some (e, first, last, []).
Proof. unfold Parser.sum. rewrite term_name. reflexivity. Qed.

Lemma comparison_name : Parser.comparison rec [t] = Some (e, first, last, []).
Proof. unfold Parser.comparison. rewrite sum_name. reflexivity. Qed.

Lemma inversion_name (fuel : nat) :
  Parser.inversion rec (S fuel) [t] = Some (e, first, last, []).
Proof.
  cbn [Parser.inversion]. unfold t at 1. cbn [Parser.is_kw Parser.tok].
  rewrite (not_keyword x _ Hk) by (vm_compute; tauto). apply comparison_name.
Qed.

Lemma conjunction_name : Parser.conjunction rec [t] = Some (e, first, last, []).
Proof.
  unfold Parser.conjunction, Parser.boolean. cbn [length].
  rewrite inversion_name. reflexivity.
Qed.

Lemma disjunction_name : Parser.disjunction rec [t] = Some (e, first, last, []).
Proof.
  unfold Parser.disjunction, Parser.boolean. rewrite conjunction_name.
  reflexivity.
Qed.

End OneName.

(** A name is parsed to an [ast.Name] that holds its NFKC normal form. *)
Lemma parse_identifier (x : string) :
  is_identifier x = true ->
  Parser.parse x
  = Some (Expression (Name (Parser.nfkc x) Load
                           (Parser.at_ 0 (Parser.width x)))).
Proof.
  intros H. unfold Parser.parse. rewrite (tokenize_identifier x H).
  unfold is_identifier in H. apply andb_prop in H as [_ Hk].
  apply negb_true_iff in Hk.
  cbn [mbind option_bind length Parser.expression].
  rewrite (disjunction_name _ x 0 _ Hk). reflexivity.
Qed.

(** ** Membership, emptiness and the empty expression *)

(** C1, as amended.  For every valid identifier [x], the predicate compiled
    from the expression [x] alone returns a boolean on every supported
    collection, and returns true exactly when the name that [ast.parse]
    gives the identifier, the NFKC normal form of [x], is contained in the
    collection: an element of a set or of a sequence of strings, a substring
    of a raw text.  An identifier of ASCII characters is its own normal
    form. *)
Theorem identifier_matches_iff_name_contained (x : string) (items : value) :
  is_identifier x = true ->
  supported items ->
  (exists b : bool,
      run (Some x) items = Return (VBool b)
      /\ (b = true <-> contained (Parser.nfkc x) items))
  /\ (ascii_name x = true -> Parser.nfkc x = x).
Proof.
  intros Hx Hs. split; [|apply nfkc_ascii].
  assert (Hne : x <> EmptyString).
  { intros ->. discriminate Hx. }
  destruct (run_parsed x _ (membership_test (Parser.nfkc x)) items Hne
                       (parse_identifier x Hx)) as [_ ->]; try reflexivity.
  rewrite eval_membership_test.
  destruct (contains_spec items (Parser.nfkc x) Hs) as (b & -> & Hb).
  now exists b.
Qed.

Lemma identifier_matches_iff_name_contained_witness :
  is_identifier "foo" = true
  /\ supported (VStr "foobarbaz")
  /\ (exists b : bool,
         run (Some "foo") (VStr "foobarbaz") = Return (VBool b)
         /\ (b = true <-> contained (Parser.nfkc "foo") (VStr "foobarbaz")))
  /\ (ascii_name "foo" = true -> Parser.nfkc "foo" = "foo").
Proof.
  split; [reflexivity|]. split; [exact I|].
  apply (identifier_matches_iff_name_contained "foo" (VStr "foobarbaz"));
    [reflexivity | exact I].
Defined.

(** C1, as stated, fails at the identifier made of the micro sign:
    [ast.parse] names it with the Greek letter mu, so the predicate is false
    on the list whose only element is the micro sign. *)
Lemma micro_sign_counterexample :
  is_identifier Parser.micro_sign = true
  /\ Parser.nfkc Parser.micro_sign = Parser.greek_mu
  /\ ~ matches_iff_contained Parser.micro_sign.
Proof.
  split; [reflexivity|]. split; [reflexivity|]. intros H.
  destruct (H (VList [Parser.micro_sign]) I) as (b & Hrun & Hb).
  assert (Hr : run (Some Parser.micro_sign) (VList [Parser.micro_sign])
               = Return (VBool false)) by reflexivity.
  rewrite Hr in Hrun. injection Hrun as <-.
  assert (Hin : contained Parser.micro_sign (VList [Parser.micro_sign]))
    by (cbn [contained]; apply list_elem_of_here).
  apply Hb in Hin. discriminate Hin.
Qed.

(** C2.  [None] and the empty string compile, to the same matcher as
    ["anything()"], and that matcher returns true on every collection,
    the empty ones included. *)
Theorem no_expression_is_anything (items : value) :
  ExpressionMatcher.__init__ None
  = ExpressionMatcher.__init__ (Some "anything()")
  /\ ExpressionMatcher.__init__ (Some EmptyString)
     = ExpressionMatcher.__init__ (Some "anything()")
  /\ compiles "anything()"
  /\ run None items = Return (VBool true)
  /\ run (Some EmptyString) items = Return (VBool true)
  /\ run (Some "anything()") items = Return (VBool true).
Proof.
  assert (Hn : ExpressionMatcher.__init__ None
               = ExpressionMatcher.__init__ (Some "anything()"))
    by reflexivity.
  assert (He : ExpressionMatcher.__init__ (Some EmptyString)
               = ExpressionMatcher.__init__ (Some "anything()"))
    by reflexivity.
  assert (Hp : Parser.parse "anything()"
               = Some (Expression
                         (Call (Name "anything" Load (Parser.at_ 0 8)) [] []
                               (Parser.at_ 0 10))))
    by reflexivity.
  destruct (run_parsed "anything()" _ always_true items
                       ltac:(discriminate) Hp eq_refl eq_refl) as [Hi Hr].
  split; [exact Hn|]. split; [exact He|].
  split; [eexists; exact Hi|].
  split; [unfold run; rewrite Hn; exact Hr|].
  split; [unfold run; rewrite He; exact Hr | exact Hr].
Qed.

(** C3.  On every supported collection the predicate compiled from
    ["empty()"] returns a boolean, which is true exactly when the collection
    has zero elements. *)
Theorem empty_matches_iff_no_element (items : value) :
  supported items ->
  exists b : bool,
    run (Some "empty()") items = Return (VBool b)
    /\ (b = true <-> len items = Some O).
Proof.
  intros Hs.
  assert (Hp : Parser.parse "empty()"
               = Some (Expression
                         (Call (Name "empty" Load (Parser.at_ 0 5)) [] []
                               (Parser.at_ 0 7))))
    by reflexivity.
  destruct (run_parsed "empty()" _ emptiness_check items
                       ltac:(discriminate) Hp eq_refl eq_refl) as [_ ->].
  rewrite eval_emptiness_check. eexists. split; [reflexivity|].
  now apply truthy_len.
Qed.

Lemma empty_matches_iff_no_element_witness :
  supported (VSet ∅)
  /\ exists b : bool,
       run (Some "empty()") (VSet ∅) = Return (VBool b)
       /\ (b = true <-> len (VSet ∅) = Some O).
Proof.
  split; [exact I|]. apply (empty_matches_iff_no_element (VSet ∅)). exact I.
Defined.

(** ** Evaluation never fails and returns a boolean *)

(** C7.  For every source text and every tree [ast.parse] may return for it,
    if the expression compiles, then applying the matcher to a supported
    collection (a set, a sequence of strings, a raw text) returns a value:
    it raises no exception, and no step leaves the modelled fragment. *)
Theorem evaluation_never_raises (text : string) (parsed : mod_)
        (m : ExpressionMatcher.t) (items : value) :
  ExpressionMatcher.init_parsed text parsed = Return m ->
  supported items ->
  (exists v : value, ExpressionMatcher.__call__ m items = Return v)
  /\ forall e : exn, ExpressionMatcher.__call__ m items <> Raise e.
Proof.
  intros H Hs. destruct (compiled_evaluates text parsed m items H Hs) as [b Hb].
  split; [now exists (VBool b) | intros e; now rewrite Hb].
Qed.

Lemma evaluation_never_raises_witness :
  Parser.parse "foo or empty()" = Some foo_or_empty
  /\ ExpressionMatcher.init_parsed "foo or empty()" foo_or_empty
     = Return foo_or_empty_matcher
  /\ supported (VList ["bar"])
  /\ (exists v : value,
        ExpressionMatcher.__call__ foo_or_empty_matcher (VList ["bar"])
        = Return v)
  /\ forall e : exn,
       ExpressionMatcher.__call__ foo_or_empty_matcher (VList ["bar"])
       <> Raise e.
Proof.
  split; [reflexivity|]. split; [reflexivity|]. split; [exact I|].
  apply (evaluation_never_raises "foo or empty()" foo_or_empty
                                 foo_or_empty_matcher (VList ["bar"]));
    [reflexivity | exact I].
Defined.

(** C10.  For every expression that compiles and every supported
    collection, the matcher returns a [bool], [True] or [False]: never the
    truthy or falsy operand that Python's [and] / [or] would pass on. *)
Theorem evaluation_returns_bool (text : string) (parsed : mod_)
        (m : ExpressionMatcher.t) (items : value) :
  ExpressionMatcher.init_parsed text parsed = Return m ->
  supported items ->
  exists b : bool, ExpressionMatcher.__call__ m items = Return (VBool b).
Proof. apply compiled_evaluates. Qed.

Lemma evaluation_returns_bool_witness :
  Parser.parse "foo and bar" = Some foo_and_bar
  /\ ExpressionMatcher.init_parsed "foo and bar" foo_and_bar
     = Return foo_and_bar_matcher
  /\ supported (VStr "foobarbaz")
  /\ exists b : bool,
       ExpressionMatcher.__call__ foo_and_bar_matcher (VStr "foobarbaz")
       = Return (VBool b).
Proof.
  split; [reflexivity|]. split; [reflexivity|]. split; [exact I|].
  apply (evaluation_returns_bool "foo and bar" foo_and_bar
                                 foo_and_bar_matcher (VStr "foobarbaz"));
    [reflexivity | exact I].
Defined.

(** ** Syntax errors and their columns *)









(** ** De Morgan's law *)

(** With [a] = ["x or y"] the second text reads ["(not x or y) and (not z)"],
    where [not] takes [x] alone: on the list [["y"]] the first predicate is
    false and the second one true. *)
Lemma de_morgan_texts_counterexample : ~ de_morgan_texts "x or y" "z".
Proof.
  intros H.
  assert (Ha : compiles "x or y") by (eexists; reflexivity).
  assert (Hb : compiles "z") by (eexists; reflexivity).
  specialize (H Ha Hb (VList ["y"]) I).
  assert (H1 : run (Some (not_or_text "x or y" "z")) (VList ["y"])
               = Return (VBool false)) by reflexivity.
  assert (H2 : run (Some (and_not_text "x or y" "z")) (VList ["y"])
               = Return (VBool true)) by reflexivity.
  rewrite H1, H2 in H. discriminate H.
Qed.

(** C8, as amended.  De Morgan's law holds on trees: when the trees [A] and
    [B] compile, the trees [not (A or B)] and [(not A) and (not B)], with
    [A] and [B] as operands, compile too, and their predicates return the
    same boolean on every supported collection. *)
Theorem de_morgan_trees (textA textB text1 text2 : string) (A B : expr)
        (mA mB : ExpressionMatcher.t) (a1 a2 a3 a4 a5 : attributes)
        (items : value) :
  ExpressionMatcher.init_parsed textA (Expression A) = Return mA ->
  ExpressionMatcher.init_parsed textB (Expression B) = Return mB ->
  supported items ->
  exists (m1 m2 : ExpressionMatcher.t) (b : bool),
    ExpressionMatcher.init_parsed text1 (not_or_tree A B a1 a2) = Return m1
    /\ ExpressionMatcher.init_parsed text2 (and_not_tree A B a3 a4 a5)
       = Return m2
    /\ ExpressionMatcher.__call__ m1 items = Return (VBool b)
    /\ ExpressionMatcher.__call__ m2 items = Return (VBool b).
Proof.
  intros HA HB Hs.
  apply init_parsed_Return in HA as (A0 & A' & [= <-] & HvA & HcA & _).
  apply init_parsed_Return in HB as (B0 & B' & [= <-] & HvB & HcB & _).
  destruct (rewritten_evaluates items A Hs _ _ HvA HcA) as [x Hx].
  destruct (rewritten_evaluates items B Hs _ _ HvB HcB) as [y Hy].
  set (self := Transformer.Make (Some text1)).
  assert (H1 : Transformer.generic_visit self (UnaryOp Not (BoolOp Or [A; B] a1) a2)
               = Return (UnaryOp Not (BoolOp Or [A'; B'] a1) a2)).
  { cbn [Transformer.generic_visit mapM].
    rewrite (generic_visit_any_self _ self A A' HvA).
    rewrite (generic_visit_any_self _ self B B' HvB). reflexivity. }
  assert (H2 : Transformer.generic_visit self
                 (BoolOp And [UnaryOp Not A a3; UnaryOp Not B a4] a5)
               = Return (BoolOp And [UnaryOp Not A' a3; UnaryOp Not B' a4] a5)).
  { cbn [Transformer.generic_visit mapM].
    rewrite (generic_visit_any_self _ self A A' HvA).
    rewrite (generic_visit_any_self _ self B B' HvB). reflexivity. }
  exists (matcher_of text1 (UnaryOp Not (BoolOp Or [A'; B'] a1) a2)),
         (matcher_of text2 (BoolOp And [UnaryOp Not A' a3; UnaryOp Not B' a4] a5)),
         (negb (x || y)).
  split; [|split].
  - apply (init_parsed_intro self _ _ _ H1).
    cbn [validate mapM length Nat.ltb Nat.leb]. now rewrite HcA, HcB.
  - apply (init_parsed_intro self _ _ _ H2).
    cbn [validate mapM length Nat.ltb Nat.leb]. now rewrite HcA, HcB.
  - rewrite !call_matcher_of. cbn [eval_expr eval_values].
    rewrite Hx, Hy. now destruct x, y.
Qed.

Lemma de_morgan_trees_witness :
  ExpressionMatcher.init_parsed "x or y" (Expression x_or_y)
  = Return (matcher_of "x or y"
              (BoolOp Or [membership_test "x"; membership_test "y"]
                      (Parser.at_ 0 6)))
  /\ ExpressionMatcher.init_parsed "z" (Expression z_alone)
     = Return (matcher_of "z" (membership_test "z"))
  /\ supported (VList ["y"])
  /\ exists (m1 m2 : ExpressionMatcher.t) (b : bool),
       ExpressionMatcher.init_parsed "not ((x or y) or z)"
         (not_or_tree x_or_y z_alone no_attributes no_attributes)
       = Return m1
       /\ ExpressionMatcher.init_parsed "(not (x or y)) and (not z)"
            (and_not_tree x_or_y z_alone
                          no_attributes no_attributes no_attributes)
          = Return m2
       /\ ExpressionMatcher.__call__ m1 (VList ["y"]) = Return (VBool b)
       /\ ExpressionMatcher.__call__ m2 (VList ["y"]) = Return (VBool b).
Proof.
  split; [reflexivity|]. split; [reflexivity|]. split; [exact I|].
  apply (de_morgan_trees
           "x or y" "z" "not ((x or y) or z)" "(not (x or y)) and (not z)"
           x_or_y z_alone
           (matcher_of "x or y"
              (BoolOp Or [membership_test "x"; membership_test "y"]
                      (Parser.at_ 0 6)))
           (matcher_of "z" (membership_test "z"))
           no_attributes no_attributes no_attributes no_attributes
           no_attributes (VList ["y"]));
    [reflexivity | reflexivity | exact I].
Defined.

(** ** Literals *)

(** The text of an integer constant is its decimal numeral: that text read
    back as a decimal numeral is the integer. *)
Lemma str_int_decimal (n : Z) :
  option_map Z.of_int (NilZero.int_of_string (str (CInt n))) = Some n.
Proof.
  cbn [str]. rewrite NilZero.isi.
  - cbn [option_map]. now rewrite DecimalZ.of_to.
  - destruct n; try discriminate.
    cbn [Z.to_int]. intros [= H]. now apply DecimalPos.Unsigned.to_uint_nonnil in H.
  - destruct n; try discriminate.
    cbn [Z.to_int]. intros [= H]. now apply DecimalPos.Unsigned.to_uint_nonnil in H.
Qed.

(** C9, as amended.  A literal alone compiles to a membership test on the
    text of its value: the predicate returns a boolean, true exactly when
    [str(value)] is contained in the collection.  For an integer literal
    [n] that text is the decimal numeral of [n], so ["42"] matches a
    collection that contains the string ["42"].  For a float literal it is
    the [repr] of the float, which need not be a decimal numeral of its
    value: ["1e22"] tests for ["1e+22"]. *)
Theorem literal_matches_iff_text_contained (c : constant) (a : attributes)
        (text : string) (items : value) :
  supported items ->
  (exists (m : ExpressionMatcher.t) (b : bool),
      ExpressionMatcher.init_parsed text (Expression (Constant c a)) = Return m
      /\ ExpressionMatcher.__call__ m items = Return (VBool b)
      /\ (b = true <-> contained (str c) items))
  /\ (forall n : Z,
         option_map Z.of_int (NilZero.int_of_string (str (CInt n))) = Some n)
  /\ Parser.parse "42" = Some (Expression (Constant (CInt 42) (Parser.at_ 0 2)))
  /\ run (Some "42") (VList ["42"]) = Return (VBool true)
  /\ Parser.parse "1e22"
     = Some (Expression (Constant (CFloat "1" 23) (Parser.at_ 0 4)))
  /\ run (Some "1e22") (VList ["1e+22"]) = Return (VBool true).
Proof.
  intros Hs.
  split; [|split; [exact str_int_decimal | repeat split; reflexivity]].
  destruct (contains_spec items (str c) Hs) as (b & Hb & Hiff).
  exists (matcher_of text (membership_test (str c))), b.
  split; [|split; [|exact Hiff]].
  - now apply (init_parsed_intro (Transformer.Make (Some text))).
  - rewrite call_matcher_of, eval_membership_test, Hb. reflexivity.
Qed.

(** C9, as stated, fails at the number literal ["1e22"], whose value is the
    integer 10^22: the predicate tests for ["1e+22"], not for the decimal
    numeral ["10000000000000000000000"]. *)
Lemma float_literal_counterexample :
  Parser.parse "1e22"
  = Some (Expression (Constant (CFloat "1" 23) (Parser.at_ 0 4)))
  /\ str (CInt (10 ^ 22)) = "10000000000000000000000"
  /\ ~ matches_iff_decimal_contained "1e22" (10 ^ 22).
Proof.
  split; [reflexivity|]. split; [reflexivity|]. intros H.
  destruct (H (VList ["10000000000000000000000"]) I) as (b & Hrun & Hb).
  assert (Hr : run (Some "1e22") (VList ["10000000000000000000000"])
               = Return (VBool false)) by reflexivity.
  rewrite Hr in Hrun. injection Hrun as <-.
  assert (Hin : contained (str (CInt (10 ^ 22)))
                          (VList ["10000000000000000000000"]))
    by (cbn [contained]; apply list_elem_of_here).
  apply Hb in Hin. discriminate Hin.
Qed.

Lemma literal_matches_iff_text_contained_witness :
  supported (VSet {[ "42" ]})
  /\ exists (m : ExpressionMatcher.t) (b : bool),
       ExpressionMatcher.init_parsed "42"
         (Expression (Constant (CInt 42) (Parser.at_ 0 2))) = Return m
       /\ ExpressionMatcher.__call__ m (VSet {[ "42" ]}) = Return (VBool b)
       /\ (b = true <-> contained (str (CInt 42)) (VSet {[ "42" ]})).
Proof.
  split; [exact I|].
  apply (literal_matches_iff_text_contained
           (CInt 42) (Parser.at_ 0 2) "42" (VSet {[ "42" ]}) I).
Defined.

(** ** The grammar that is accepted *)

Lemma mapM_Return_length {A B : Type} (f : A -> outcome B) (l : list A) :
  forall l', mapM f l = Return l' -> length l' = length l.
Proof.
  induction l as [|a l IH]; simpl; intros l' H.
  - now injection H as <-.
  - destruct (f a) as [b| |]; try discriminate. simpl in H.
    destruct (mapM f l) as [bs| |]; try discriminate.
    injection H as <-. simpl. now rewrite (IH bs).
Qed.

Lemma Forall_forallb {A : Type} (f : A -> bool) (l : list A) :
  Forall (fun x => f x = true) l -> forallb f l = true.
Proof.
  induction 1 as [|x l Hx _ IH]; [reflexivity|]. simpl. now rewrite Hx, IH.
Qed.

(** X1.  A tree that [generic_visit] returns is made of the six kinds of
    nodes of a predicate tree only: no call, no arithmetic, no comparison
    other than [key in items] is left in it. *)
Theorem rewritten_is_predicate_tree (self : Transformer.t) (node : expr) :
  forall node' : expr,
    Transformer.generic_visit self node = Return node' ->
    is_predicate_tree node' = true.
Proof.
  induction node using expr_children_ind; intros node' Hv;
    apply generic_visit_Return in Hv
      as [(k & a' & Hn & ->) | [(k & a' & Hn & ->) | [(x & fa & a' & Hn & ->)
          | [(x & fa & a' & Hn & ->) | [(o & vs & vs' & a' & Hn & Hm & ->)
          | (e & e' & a' & Hn & He & ->)]]]]];
    try discriminate Hn; try reflexivity.
  - injection Hn as -> -> ->. cbn [is_predicate_tree].
    apply Forall_forallb.
    eapply mapM_Return_Forall; [|exact Hm].
    eapply Forall_impl; [exact H|]. intros v IHv b Hb. now apply IHv.
  - injection Hn as -> -> ->. specialize (IHnode e' He).
    cbn [is_predicate_tree]. destruct e'; try exact IHnode; discriminate IHnode.
Qed.

Lemma rewritten_is_predicate_tree_witness :
  Transformer.generic_visit (Transformer.Make (Some "foo or empty()"))
    (BoolOp Or [Name "foo" Load (Parser.at_ 0 3);
                Call (Name "empty" Load (Parser.at_ 7 12)) [] []
                     (Parser.at_ 7 14)] (Parser.at_ 0 14))
  = Return (BoolOp Or [membership_test "foo"; emptiness_check]
                   (Parser.at_ 0 14))
  /\ is_predicate_tree (BoolOp Or [membership_test "foo"; emptiness_check]
                               (Parser.at_ 0 14)) = true.
Proof.
  split; [reflexivity|].
  apply (rewritten_is_predicate_tree
           (Transformer.Make (Some "foo or empty()"))
           (BoolOp Or [Name "foo" Load (Parser.at_ 0 3);
                       Call (Name "empty" Load (Parser.at_ 7 12)) [] []
                            (Parser.at_ 7 14)] (Parser.at_ 0 14))).
  reflexivity.
Defined.

Lemma in_grammar_returns (self : Transformer.t) (node : expr) :
  in_grammar node = true ->
  exists node' : expr, Transformer.generic_visit self node = Return node'.
Proof.
  induction node using expr_children_ind; intros Hg; try discriminate Hg.
  - cbn [in_grammar] in Hg. cbn [Transformer.generic_visit].
    assert (Hvs : exists vs,
               mapM (Transformer.generic_visit self) values = Return vs).
    { induction H as [|v vs Hv _ IH]; [now exists []|].
      cbn [forallb] in Hg. apply andb_prop in Hg as [Hg1 Hg2].
      destruct (Hv Hg1) as [v' Hv']. destruct (IH Hg2) as [vs' Hvs'].
      exists (v' :: vs'). simpl. now rewrite Hv', Hvs'. }
    destruct Hvs as [vs ->]. now eexists.
  - destruct op; try discriminate Hg. cbn [in_grammar] in Hg.
    destruct (IHnode Hg) as [e' He]. cbn [Transformer.generic_visit].
    rewrite He. now eexists.
  - destruct node as [| | | | | | | | fid ctx fa |]; try discriminate Hg.
    destruct args; [|discriminate Hg]. destruct keywords; [|discriminate Hg].
    cbn [in_grammar] in Hg. cbn [Transformer.generic_visit Transformer.is_nil].
    rewrite !andb_true_r.
    destruct (String.eqb fid "empty"); [now eexists|].
    cbn [orb] in Hg. rewrite Hg. now eexists.
  - now eexists.
  - destruct ctx; try discriminate Hg. now eexists.
Qed.

Lemma returns_in_grammar (self : Transformer.t) (node : expr) :
  forall node' : expr,
    Transformer.generic_visit self node = Return node' ->
    in_grammar node = true.
Proof.
  induction node using expr_children_ind; intros node' Hv;
    apply generic_visit_Return in Hv
      as [(k & a' & Hn & ->) | [(k & a' & Hn & ->) | [(x & fa & a' & Hn & ->)
          | [(x & fa & a' & Hn & ->) | [(o & vs & vs' & a' & Hn & Hm & ->)
          | (e & e' & a' & Hn & He & ->)]]]]];
    try discriminate Hn; try (injection Hn as -> -> ->);
    try (injection Hn as -> ->); try (injection Hn as -> -> -> ->);
    try reflexivity.
  - cbn [in_grammar]. clear - H Hm. revert vs' Hm.
    induction H as [|v vs Hv _ IH]; intros vs' Hm; [reflexivity|].
    simpl in Hm.
    destruct (Transformer.generic_visit self v) as [v'| |] eqn:Ev;
      try discriminate.
    simpl in Hm.
    destruct (mapM (Transformer.generic_visit self) vs) as [vs''| |] eqn:Evs;
      try discriminate.
    cbn [forallb]. rewrite (Hv v' eq_refl). now rewrite (IH vs'' eq_refl).
  - cbn [in_grammar]. now apply (IHnode e').
Qed.

(** X2.  [generic_visit] returns a tree exactly on the trees of the grammar:
    names that are read, literals, [empty()], [anything()], and [and], [or],
    [not] over them.  Whether it returns does not depend on the expression
    text that the transformer keeps. *)
Theorem returns_iff_in_grammar (self : Transformer.t) (node : expr) :
  (exists node' : expr, Transformer.generic_visit self node = Return node')
  <-> in_grammar node = true.
Proof.
  split.
  - intros [node' H]. now apply (returns_in_grammar self node node').
  - apply in_grammar_returns.
Qed.

Lemma validate_rewritten (self : Transformer.t) (node : expr) :
  wide_boolops node = true ->
  forall node' : expr,
    Transformer.generic_visit self node = Return node' ->
    validate node' = Return tt.
Proof.
  induction node using expr_children_ind; intros Hw node' Hv;
    apply generic_visit_Return in Hv
      as [(k & a' & Hn & ->) | [(k & a' & Hn & ->) | [(x & fa & a' & Hn & ->)
          | [(x & fa & a' & Hn & ->) | [(o & vs & vs' & a' & Hn & Hm & ->)
          | (e & e' & a' & Hn & He & ->)]]]]];
    try discriminate Hn; try reflexivity.
  - injection Hn as -> -> ->. cbn [wide_boolops] in Hw.
    apply andb_prop in Hw as [Hlen Hw]. cbn [validate].
    rewrite (mapM_Return_length _ _ _ Hm).
    apply Nat.leb_le in Hlen.
    destruct (Nat.ltb_spec (length vs) 2) as [Hlt|_]; [lia|].
    assert (Hall : exists us, mapM validate vs' = Return us).
    { clear - H Hm Hw. revert vs' Hm.
      induction H as [|v vs Hv _ IH]; intros vs' Hm.
      - injection Hm as <-. now exists [].
      - simpl in Hm.
        destruct (Transformer.generic_visit self v) as [v'| |] eqn:Ev;
          try discriminate.
        simpl in Hm.
        destruct (mapM (Transformer.generic_visit self) vs) as [vs''| |] eqn:Evs;
          try discriminate.
        injection Hm as <-. cbn [forallb] in Hw.
        apply andb_prop in Hw as [Hw1 Hw2].
        destruct (IH Hw2 vs'' eq_refl) as [us Hus].
        exists (tt :: us). simpl. now rewrite (Hv Hw1 v' eq_refl), Hus. }
    destruct Hall as [us ->]. reflexivity.
  - injection Hn as -> -> ->. cbn [wide_boolops] in Hw. cbn [validate].
    now apply (IHnode Hw e').
Qed.

(** X3.  On a tree whose [and] / [or] nodes have two operands or more,
    [__init__] builds a matcher exactly when the tree is in the grammar:
    [compile] never refuses what the transformer returned. *)
Theorem compiles_iff_in_grammar (text : string) (body : expr) :
  wide_boolops body = true ->
  (exists m : ExpressionMatcher.t,
      ExpressionMatcher.init_parsed text (Expression body) = Return m)
  <-> in_grammar body = true.
Proof.
  intros Hw. split.
  - intros [m H].
    apply init_parsed_Return in H as (b & b' & [= <-] & Hv & _).
    exact (returns_in_grammar _ body b' Hv).
  - intros Hg.
    destruct (in_grammar_returns (Transformer.Make (Some text)) body Hg)
      as [body' Hv].
    exists (matcher_of text body').
    apply (init_parsed_intro _ _ _ _ Hv).
    exact (validate_rewritten _ body Hw body' Hv).
Qed.

Lemma compiles_iff_in_grammar_witness :
  wide_boolops x_or_y = true
  /\ ((exists m : ExpressionMatcher.t,
          ExpressionMatcher.init_parsed "x or y" (Expression x_or_y) = Return m)
      <-> in_grammar x_or_y = true).
Proof.
  split; [reflexivity|].
  apply (compiles_iff_in_grammar "x or y" x_or_y). reflexivity.
Defined.

(** ** The errors of the transformer *)

(** X4.  In an [and] / [or], the error raised is that of the first operand
    that is refused: the operands before it are rewritten, the ones after it
    are not looked at. *)
Theorem first_refused_operand (self : Transformer.t) (op : boolop)
        (before : list expr) (refused : expr) (after : list expr)
        (a : attributes) (e : exn) :
  forallb in_grammar before = true ->
  Transformer.generic_visit self refused = Raise e ->
  Transformer.generic_visit self (BoolOp op (before ++ refused :: after) a)
  = Raise e.
Proof.
  intros Hb He. cbn [Transformer.generic_visit].
  assert (Hm : mapM (Transformer.generic_visit self) (before ++ refused :: after)
               = Raise e).
  { induction before as [|v vs IH]; simpl.
    - now rewrite He.
    - cbn [forallb] in Hb. apply andb_prop in Hb as [Hv Hvs].
      destruct (in_grammar_returns self v Hv) as [v' ->]. simpl.
      now rewrite (IH Hvs). }
  now rewrite Hm.
Qed.

Lemma first_refused_operand_witness :
  forallb in_grammar [Name "a" Load (Parser.at_ 0 1)] = true
  /\ Transformer.generic_visit (Transformer.Make (Some "a and b() and c + 1"))
       (Call (Name "b" Load (Parser.at_ 6 7)) [] [] (Parser.at_ 6 9))
     = Raise (SyntaxError "invalid syntax, unknown function" 1 7
                          (Some "a and b() and c + 1"))
  /\ Transformer.generic_visit (Transformer.Make (Some "a and b() and c + 1"))
       (BoolOp And
          ([Name "a" Load (Parser.at_ 0 1)]
           ++ Call (Name "b" Load (Parser.at_ 6 7)) [] [] (Parser.at_ 6 9)
           :: [BinOp (Name "c" Load (Parser.at_ 14 15)) Add
                     (Constant (CInt 1) (Parser.at_ 18 19))
                     (Parser.at_ 14 19)])
          (Parser.at_ 0 19))
     = Raise (SyntaxError "invalid syntax, unknown function" 1 7
                          (Some "a and b() and c + 1")).
Proof.
  split; [reflexivity|]. split; [reflexivity|].
  apply (first_refused_operand
           (Transformer.Make (Some "a and b() and c + 1")) And
           [Name "a" Load (Parser.at_ 0 1)]
           (Call (Name "b" Load (Parser.at_ 6 7)) [] [] (Parser.at_ 6 9))
           [BinOp (Name "c" Load (Parser.at_ 14 15)) Add
                  (Constant (CInt 1) (Parser.at_ 18 19)) (Parser.at_ 14 19)]
           (Parser.at_ 0 19));
    reflexivity.
Defined.

Lemma py_or_Return (x : option Z) (v : Z) :
  exists w : Z, py_or x (Return v) = Return w.
Proof.
  destruct x as [z|]; simpl; [|now exists v].
  destruct (z =? 0); [now exists v | now exists z].
Qed.

Lemma error_is_transformer_error (self : Transformer.t) (node : expr)
      (x y : option Z) (msg : string) (f : Z -> Z) (l c : Z) :
  lineno (attrs node) = Some l ->
  col_offset (attrs node) = Some c ->
  List.In msg messages ->
  transformer_error self
    (l ← py_or x (get_lineno node);
     c ← py_or y (get_col_offset node);
     Transformer.error self msg l (f c)).
Proof.
  intros Hl Hc Hin. unfold get_lineno, get_col_offset. rewrite Hl, Hc.
  destruct (py_or_Return x l) as [l' ->]. destruct (py_or_Return y c) as [c' ->].
  exists msg, l', (f c' + 1). now split.
Qed.

Lemma located_outcome (self : Transformer.t) (node : expr) :
  located node = true ->
  (exists node' : expr, Transformer.generic_visit self node = Return node')
  \/ transformer_error self (Transformer.generic_visit self node).
Proof.
  induction node using expr_children_ind; intros Hloc;
    unfold located in Hloc; fold located in Hloc;
    destruct (lineno (attrs _)) as [l|] eqn:Hl; try discriminate Hloc;
    destruct (col_offset (attrs _)) as [c|] eqn:Hc; try discriminate Hloc;
    pose proof (fun x y msg f =>
                  error_is_transformer_error self _ x y msg f l c Hl Hc) as Herr;
    cbn [Transformer.generic_visit].
  - (* BoolOp *)
    assert (Hvs : (exists vs, mapM (Transformer.generic_visit self) values
                              = Return vs)
                  \/ transformer_error self
                       (vs ← mapM (Transformer.generic_visit self) values;
                        Return (BoolOp op vs a))).
    { clear Herr Hl Hc. induction H as [|v vs Hv _ IH]; [left; now exists []|].
      cbn [forallb] in Hloc. apply andb_prop in Hloc as [Hv1 Hvs1].
      destruct (Hv Hv1) as [[v' Ev] | (msg & l' & c' & Ev & Hin)].
      - destruct (IH Hvs1) as [[vs' Evs] | (msg & l' & c' & Evs & Hin)].
        + left. exists (v' :: vs'). simpl. now rewrite Ev, Evs.
        + right. exists msg, l', c'. split; [|exact Hin]. simpl. rewrite Ev.
          simpl. destruct (mapM (Transformer.generic_visit self) vs);
            simpl in *; congruence.
      - right. exists msg, l', c'. split; [|exact Hin]. simpl. now rewrite Ev. }
    destruct Hvs as [[vs ->] | Hvs]; [left; now eexists | now right].
  - (* BinOp *)
    right. destruct node1;
      try (apply (Herr None None _ (fun c => c + 1)); simpl; tauto).
    apply (Herr _ _ _ (fun c => c)); simpl; tauto.
  - (* UnaryOp *)
    destruct op;
      try (right; apply (Herr None None _ (fun c => c + 1)); simpl; tauto).
    destruct (IHnode Hloc) as [[e' ->] | (msg & l' & c' & -> & Hin)].
    + left. now eexists.
    + right. now exists msg, l', c'.
  - right. apply (Herr None None _ (fun c => c + 1)); simpl; tauto.
  - right. apply (Herr None None _ (fun c => c + 1)); simpl; tauto.
  - (* Call *)
    destruct node as [| | | | | | | | fid ctx fa |];
      try (right; apply (Herr None None _ (fun c => c + 1)); simpl; tauto).
    destruct ((fid =? "empty")%string && Transformer.is_nil args
              && Transformer.is_nil keywords); [left; now eexists|].
    destruct ((fid =? "anything")%string && Transformer.is_nil args
              && Transformer.is_nil keywords); [left; now eexists|].
    right.
    destruct (String.eqb_spec fid "empty") as [->|_].
    { apply (Herr _ _ _ (fun c => c)); simpl; tauto. }
    destruct (String.eqb_spec fid "anything") as [->|_].
    { apply (Herr _ _ _ (fun c => c)); simpl; tauto. }
    apply (Herr None None _ (fun c => c)); simpl; tauto.
  - left. now eexists.
  - right. apply (Herr None None _ (fun c => c + 1)); simpl; tauto.
  - destruct ctx; [left; now eexists| |];
      right; apply (Herr None None _ (fun c => c + 1)); simpl; tauto.
  - right. apply (Herr None None _ (fun c => c + 1)); simpl; tauto.
Qed.

(** X5.  On a tree where every node has a line and a column, a tree outside
    the grammar is refused with a [SyntaxError] that carries the expression
    text and one of the five messages of the transformer: position
    attributes are never missed, and no other exception is raised. *)
Theorem refused_with_syntax_error (text : string) (body : expr) :
  located body = true ->
  in_grammar body = false ->
  exists (msg : string) (l c : Z),
    ExpressionMatcher.init_parsed text (Expression body)
    = Raise (SyntaxError msg l c (Some text))
    /\ List.In msg messages.
Proof.
  intros Hloc Hg.
  destruct (located_outcome (Transformer.Make (Some text)) body Hloc)
    as [[body' Hv] | (msg & l & c & Hv & Hin)].
  - apply returns_in_grammar in Hv. congruence.
  - exists msg, l, c. split; [|exact Hin].
    unfold ExpressionMatcher.init_parsed. cbn [Transformer.visit].
    now rewrite Hv.
Qed.

Lemma refused_with_syntax_error_witness :
  located (Call (Name "empty" Load (Parser.at_ 0 5))
                [Constant (CInt 1) (Parser.at_ 6 7)] [] (Parser.at_ 0 8)) = true
  /\ in_grammar (Call (Name "empty" Load (Parser.at_ 0 5))
                      [Constant (CInt 1) (Parser.at_ 6 7)] [] (Parser.at_ 0 8))
     = false
  /\ exists (msg : string) (l c : Z),
       ExpressionMatcher.init_parsed "empty(1)"
         (Expression (Call (Name "empty" Load (Parser.at_ 0 5))
                           [Constant (CInt 1) (Parser.at_ 6 7)] []
                           (Parser.at_ 0 8)))
       = Raise (SyntaxError msg l c (Some "empty(1)"))
       /\ List.In msg messages.
Proof.
  split; [reflexivity|]. split; [reflexivity|].
  apply (refused_with_syntax_error "empty(1)"
           (Call (Name "empty" Load (Parser.at_ 0 5))
                 [Constant (CInt 1) (Parser.at_ 6 7)] [] (Parser.at_ 0 8)));
    reflexivity.
Defined.

(** ** The source that a matcher keeps *)

Lemma init_Return (expression : option string) (m : ExpressionMatcher.t) :
  ExpressionMatcher.__init__ expression = Return m ->
  exists (parsed : mod_),
    ExpressionMatcher.init_parsed
      (if ExpressionMatcher.not_ expression then "anything()"
       else default EmptyString expression) parsed = Return m.
Proof.
  unfold ExpressionMatcher.__init__. cbv zeta.
  destruct (ast_parse _) as [parsed| |]; try discriminate.
  intros H. now exists parsed.
Qed.

(** ** What [and], [or] and [not] compute *)

Lemma eval_values_combine (ev : expr -> outcome value) (op : boolop)
      (vs : list expr) (bs : list bool) :
  vs <> [] ->
  Forall2 (fun v b => ev v = Return (VBool b)) vs bs ->
  eval_values ev op vs = Return (VBool (combine op bs)).
Proof.
  intros Hne H. induction H as [|v b vs bs Hv Hvs IH]; [congruence|].
  simpl. rewrite Hv. simpl. destruct Hvs as [|v' b' vs' bs' Hv' Hvs'].
  - destruct op, b; reflexivity.
  - assert (Hrest : eval_values ev op (v' :: vs')
                    = Return (VBool (combine op (b' :: bs'))))
      by (apply IH; discriminate).
    destruct op, b; simpl; try reflexivity; exact Hrest.
Qed.

(** X7.  An [and] / [or] over operands that compile compiles, provided it
    has two operands or more, and on every supported collection it returns
    the conjunction / disjunction of what the matchers of its operands
    return. *)
Theorem boolop_combines_operands (text : string) (op : boolop)
        (values : list expr) (a : attributes)
        (ms : list ExpressionMatcher.t) (items : value) :
  (2 <= length values)%nat ->
  Forall2 (fun v m => exists t : string,
               ExpressionMatcher.init_parsed t (Expression v) = Return m)
          values ms ->
  supported items ->
  exists (m : ExpressionMatcher.t) (bs : list bool),
    ExpressionMatcher.init_parsed text (Expression (BoolOp op values a))
    = Return m
    /\ Forall2 (fun mi b =>
                  ExpressionMatcher.__call__ mi items = Return (VBool b)) ms bs
    /\ ExpressionMatcher.__call__ m items = Return (VBool (combine op bs)).
Proof.
  intros Hlen Hall Hs.
  set (self := Transformer.Make (Some text)).
  assert (Hex : exists (vs : list expr) (bs : list bool),
             mapM (Transformer.generic_visit self) values = Return vs
             /\ (exists us, mapM validate vs = Return us)
             /\ Forall2 (fun mi b => ExpressionMatcher.__call__ mi items
                                     = Return (VBool b)) ms bs
             /\ Forall2 (fun v b => eval_expr (namespace items) v
                                    = Return (VBool b)) vs bs).
  { clear Hlen. induction Hall as [|v m vs0 ms0 [t Hv] _ IH].
    - exists [], []. repeat split; try constructor. now exists [].
    - destruct IH as (vs & bs & Hm & [us Hus] & Hc & He).
      apply init_parsed_Return in Hv as (v0 & v' & [= <-] & Hv & Hval & ->).
      destruct (rewritten_evaluates items v Hs _ _ Hv Hval) as [b Hb].
      exists (v' :: vs), (b :: bs). split; [|split; [|split]].
      + simpl. rewrite (generic_visit_any_self _ self v v' Hv). simpl.
        now rewrite Hm.
      + exists (tt :: us). simpl. now rewrite Hval, Hus.
      + constructor; [|exact Hc]. now rewrite call_matcher_of.
      + now constructor. }
  destruct Hex as (vs & bs & Hm & [us Hus] & Hc & He).
  exists (matcher_of text (BoolOp op vs a)), bs. split; [|split; [exact Hc|]].
  - apply (init_parsed_intro self).
    + cbn [Transformer.generic_visit]. now rewrite Hm.
    + cbn [validate]. rewrite (mapM_Return_length _ _ _ Hm).
      destruct (Nat.ltb_spec (length values) 2) as [Hlt|_]; [lia|].
      now rewrite Hus.
  - rewrite call_matcher_of. cbn [eval_expr]. apply eval_values_combine.
    + intros ->. apply mapM_Return_length in Hm. simpl in Hm. lia.
    + exact He.
Qed.

Lemma boolop_combines_operands_witness :
  (2 <= length [x_or_y; z_alone])%nat
  /\ Forall2 (fun v m => exists t : string,
                  ExpressionMatcher.init_parsed t (Expression v) = Return m)
             [x_or_y; z_alone]
             [matcher_of "x or y"
                (BoolOp Or [membership_test "x"; membership_test "y"]
                        (Parser.at_ 0 6));
              matcher_of "z" (membership_test "z")]
  /\ supported (VList ["y"])
  /\ exists (m : ExpressionMatcher.t) (bs : list bool),
       ExpressionMatcher.init_parsed "(x or y) and z"
         (Expression (BoolOp And [x_or_y; z_alone] no_attributes))
       = Return m
       /\ Forall2 (fun mi b =>
                     ExpressionMatcher.__call__ mi (VList ["y"])
                     = Return (VBool b))
                  [matcher_of "x or y"
                     (BoolOp Or [membership_test "x"; membership_test "y"]
                             (Parser.at_ 0 6));
                   matcher_of "z" (membership_test "z")] bs
       /\ ExpressionMatcher.__call__ m (VList ["y"])
          = Return (VBool (combine And bs)).
Proof.
  assert (H2 : Forall2 (fun v m => exists t : string,
                  ExpressionMatcher.init_parsed t (Expression v) = Return m)
             [x_or_y; z_alone]
             [matcher_of "x or y"
                (BoolOp Or [membership_test "x"; membership_test "y"]
                        (Parser.at_ 0 6));
              matcher_of "z" (membership_test "z")]).
  { constructor; [now exists "x or y"|].
    constructor; [now exists "z" | constructor]. }
  split; [simpl; lia|]. split; [exact H2|]. split; [exact I|].
  apply (boolop_combines_operands "(x or y) and z" And [x_or_y; z_alone]
           no_attributes _ (VList ["y"])); [simpl; lia | exact H2 | exact I].
Defined.

(** X8.  The [not] of an expression that compiles compiles, and on every
    supported collection it returns the negation of what the matcher of its
    operand returns. *)
Theorem not_negates_operand (text t : string) (operand : expr)
        (a : attributes) (mo : ExpressionMatcher.t) (items : value) :
  ExpressionMatcher.init_parsed t (Expression operand) = Return mo ->
  supported items ->
  exists (m : ExpressionMatcher.t) (b : bool),
    ExpressionMatcher.init_parsed text (Expression (UnaryOp Not operand a))
    = Return m
    /\ ExpressionMatcher.__call__ mo items = Return (VBool b)
    /\ ExpressionMatcher.__call__ m items = Return (VBool (negb b)).
Proof.
  intros H Hs.
  apply init_parsed_Return in H as (v0 & v' & [= <-] & Hv & Hval & ->).
  destruct (rewritten_evaluates items operand Hs _ _ Hv Hval) as [b Hb].
  exists (matcher_of text (UnaryOp Not v' a)), b. split; [|split].
  - apply (init_parsed_intro (Transformer.Make (Some text))).
    + cbn [Transformer.generic_visit].
      now rewrite (generic_visit_any_self _ _ operand v' Hv).
    + exact Hval.
  - now rewrite call_matcher_of.
  - rewrite call_matcher_of. cbn [eval_expr]. now rewrite Hb.
Qed.

Lemma not_negates_operand_witness :
  ExpressionMatcher.init_parsed "z" (Expression z_alone)
  = Return (matcher_of "z" (membership_test "z"))
  /\ supported (VStr "xyz")
  /\ exists (m : ExpressionMatcher.t) (b : bool),
       ExpressionMatcher.init_parsed "not z"
         (Expression (UnaryOp Not z_alone no_attributes)) = Return m
       /\ ExpressionMatcher.__call__ (matcher_of "z" (membership_test "z"))
            (VStr "xyz") = Return (VBool b)
       /\ ExpressionMatcher.__call__ m (VStr "xyz") = Return (VBool (negb b)).
Proof.
  split; [reflexivity|]. split; [exact I|].
  apply (not_negates_operand "not z" "z" z_alone no_attributes
           (matcher_of "z" (membership_test "z")) (VStr "xyz"));
    [reflexivity | exact I].
Defined.

(** ** What a matcher sees of a collection *)

Lemma eval_values_ext (ev1 ev2 : expr -> outcome value) (op : boolop)
      (vs : list expr) :
  Forall (fun v => ev1 v = ev2 v) vs ->
  eval_values ev1 op vs = eval_values ev2 op vs.
Proof.
  induction 1 as [|v vs Hv _ IH]; [reflexivity|].
  simpl. rewrite Hv. destruct (ev2 v) as [x| |]; try reflexivity. simpl.
  destruct vs; [reflexivity|]. destruct (stops op x); [reflexivity | exact IH].
Qed.

Lemma rewritten_same_answers (items1 items2 : value) (node : expr) :
  (forall key : string,
      contains items1 (VStr key) = contains items2 (VStr key)) ->
  truthy items1 = truthy items2 ->
  forall (self : Transformer.t) (node' : expr),
    Transformer.generic_visit self node = Return node' ->
    eval_expr (namespace items1) node' = eval_expr (namespace items2) node'.
Proof.
  intros Hin Ht.
  induction node using expr_children_ind; intros self node' Hv;
    apply generic_visit_Return in Hv
      as [(k & a' & Hn & ->) | [(k & a' & Hn & ->) | [(x & fa & a' & Hn & ->)
          | [(x & fa & a' & Hn & ->) | [(o & vs & vs' & a' & Hn & Hm & ->)
          | (e & e' & a' & Hn & He & ->)]]]]];
    try discriminate Hn;
    try (rewrite !eval_membership_test; now rewrite Hin);
    try (rewrite !eval_emptiness_check; now rewrite Ht);
    try reflexivity.
  - injection Hn as -> -> ->. cbn [eval_expr]. apply eval_values_ext.
    eapply mapM_Return_Forall; [|exact Hm].
    eapply Forall_impl; [exact H|]. intros v IHv b Hb. now apply (IHv self).
  - injection Hn as -> -> ->. cbn [eval_expr]. now rewrite (IHnode self e' He).
Qed.

(** X9.  A matcher sees a collection only through its membership tests and
    its emptiness: two collections that answer every [key in items] alike
    and are both empty or both not get the same result from every
    matcher. *)
Theorem same_tests_same_result (text : string) (parsed : mod_)
        (m : ExpressionMatcher.t) (items1 items2 : value) :
  ExpressionMatcher.init_parsed text parsed = Return m ->
  (forall key : string,
      contains items1 (VStr key) = contains items2 (VStr key)) ->
  truthy items1 = truthy items2 ->
  ExpressionMatcher.__call__ m items1 = ExpressionMatcher.__call__ m items2.
Proof.
  intros H Hin Ht.
  apply init_parsed_Return in H as (body & body' & -> & Hv & _ & ->).
  rewrite !call_matcher_of.
  now apply (rewritten_same_answers items1 items2 body Hin Ht _ _ Hv).
Qed.

Lemma same_tests_same_result_witness :
  ExpressionMatcher.init_parsed "foo or empty()" foo_or_empty
  = Return foo_or_empty_matcher
  /\ (forall key : string,
         contains (VList ["a"; "b"; "a"]) (VStr key)
         = contains (VList ["b"; "a"]) (VStr key))
  /\ truthy (VList ["a"; "b"; "a"]) = truthy (VList ["b"; "a"])
  /\ ExpressionMatcher.__call__ foo_or_empty_matcher (VList ["a"; "b"; "a"])
     = ExpressionMatcher.__call__ foo_or_empty_matcher (VList ["b"; "a"]).
Proof.
  assert (Hin : forall key : string,
             contains (VList ["a"; "b"; "a"]) (VStr key)
             = contains (VList ["b"; "a"]) (VStr key)).
  { intros key. cbn [contains]. f_equal. apply bool_decide_ext.
    rewrite !elem_of_cons, elem_of_nil. tauto. }
  split; [reflexivity|]. split; [exact Hin|]. split; [reflexivity|].
  apply (same_tests_same_result "foo or empty()" foo_or_empty
           foo_or_empty_matcher (VList ["a"; "b"; "a"]) (VList ["b"; "a"]));
    [reflexivity | exact Hin | reflexivity].
Defined.

(** X10.  A matcher gives the same result on a list of strings and on the
    set of its elements: neither the order nor the repetitions of the list
    count. *)
Theorem list_as_set (text : string) (parsed : mod_) (m : ExpressionMatcher.t)
        (l : list string) :
  ExpressionMatcher.init_parsed text parsed = Return m ->
  ExpressionMatcher.__call__ m (VList l)
  = ExpressionMatcher.__call__ m (VSet (list_to_set l)).
Proof.
  intros H. apply init_parsed_Return in H as (body & body' & -> & Hv & _ & ->).
  rewrite !call_matcher_of.
  apply (rewritten_same_answers (VList l) (VSet (list_to_set l)) body)
    with (self := Transformer.Make (Some text)); [| |exact Hv].
  - intros key. cbn [contains]. f_equal. apply bool_decide_ext.
    now rewrite elem_of_list_to_set.
  - cbn [truthy len]. destruct l as [|x l]; [reflexivity|].
    cbn [length].
    destruct (size (list_to_set (x :: l) : gset string)) eqn:Hsize;
      [|reflexivity].
    apply size_empty_iff in Hsize.
    assert (Hx : x ∈ (list_to_set (x :: l) : gset string))
      by (apply elem_of_list_to_set; left).
    rewrite Hsize in Hx. now apply not_elem_of_empty in Hx.
Qed.

Lemma list_as_set_witness :
  ExpressionMatcher.init_parsed "foo and bar" foo_and_bar
  = Return foo_and_bar_matcher
  /\ ExpressionMatcher.__call__ foo_and_bar_matcher (VList ["bar"; "foo"; "bar"])
     = ExpressionMatcher.__call__ foo_and_bar_matcher
         (VSet (list_to_set ["bar"; "foo"; "bar"])).
Proof.
  split; [reflexivity|].
  apply (list_as_set "foo and bar" foo_and_bar foo_and_bar_matcher
                     ["bar"; "foo"; "bar"]).
  reflexivity.
Defined.

(** ** The command line *)

(** X11.  When the expression compiles, the script prints one mark and
    exits: with the check mark and status 0 when the matcher returns [True]
    on the list of the item arguments, with the cross and status 1 when it
    returns [False].  No exception is raised once the expression is
    compiled. *)
Theorem main_exit_status (prog expression : string) (items : list string)
        (m : ExpressionMatcher.t) :
  ExpressionMatcher.__init__ (Some expression) = Return m ->
  exists b : bool,
    ExpressionMatcher.__call__ m (VList items) = Return (VBool b)
    /\ main (prog :: expression :: items)
       = Exit (if b then "✅" else "❌") (if b then 0 else 1).
Proof.
  intros H. destruct (init_Return _ _ H) as [parsed Hp].
  destruct (compiled_evaluates _ _ _ (VList items) Hp I) as [b Hb].
  exists b. split; [exact Hb|].
  unfold main. rewrite H, Hb. reflexivity.
Qed.

Lemma main_exit_status_witness :
  ExpressionMatcher.__init__ (Some "foo and bar") = Return foo_and_bar_matcher
  /\ exists b : bool,
       ExpressionMatcher.__call__ foo_and_bar_matcher (VList ["foo"])
       = Return (VBool b)
       /\ main ["match.py"; "foo and bar"; "foo"]
          = Exit (if b then "✅" else "❌") (if b then 0 else 1).
Proof.
  split; [reflexivity|].
  apply (main_exit_status "match.py" "foo and bar" ["foo"] foo_and_bar_matcher).
  reflexivity.
Defined.

(** X12.  With an identifier as its expression the script exits with
    status 0 exactly when the name that [ast.parse] gives the identifier,
    its NFKC normal form, is equal to one of the item arguments, and with
    status 1 otherwise: on the command line an item matches by equality,
    never as a substring, and the micro sign does not match itself. *)
Theorem main_identifier (prog x : string) (items : list string) :
  is_identifier x = true ->
  main (prog :: x :: items)
  = if bool_decide (Parser.nfkc x ∈ items) then Exit "✅" 0 else Exit "❌" 1.
Proof.
  intros Hx.
  assert (Hne : x <> EmptyString) by (intros ->; discriminate Hx).
  destruct (run_parsed x _ (membership_test (Parser.nfkc x)) (VList items) Hne
                       (parse_identifier x Hx) eq_refl eq_refl) as [Hi _].
  unfold main. rewrite Hi, call_matcher_of, eval_membership_test.
  cbn [contains mbind outcome_bind truthy].
  now destruct (bool_decide (Parser.nfkc x ∈ items)).
Qed.

Lemma main_identifier_witness :
  is_identifier Parser.micro_sign = true
  /\ main ["match.py"; Parser.micro_sign; "foo"; Parser.micro_sign]
     = if bool_decide (Parser.nfkc Parser.micro_sign
                       ∈ ["foo"; Parser.micro_sign])
       then Exit "✅" 0 else Exit "❌" 1.
Proof.
  split; [reflexivity|].
  apply (main_identifier "match.py" Parser.micro_sign
                         ["foo"; Parser.micro_sign]).
  reflexivity.
Defined.

(** ** The default arm *)

(** X13.  A node of the default arm (a comparison, a unary minus, a
    conditional, an attribute, a tuple, a call of something that is not a
    name, a binary operation whose left operand is not a name, a name that
    is not read) is refused with the plain message ["invalid syntax"], at
    the line of the node and at the column [col_offset + 2]: one more than
    the column, counted from 1, where the node begins. *)
Theorem default_arm_error (self : Transformer.t) (node : expr) (l c : Z) :
  default_arm node = true ->
  lineno (attrs node) = Some l ->
  col_offset (attrs node) = Some c ->
  Transformer.visit self (Expression node)
  = Raise (SyntaxError "invalid syntax" l (c + 2) (Transformer.expression self)).
Proof.
  intros Hd Hl Hc.
  assert (Herr : (l ← get_lineno node; c ← get_col_offset node;
                  Transformer.error self "invalid syntax" l (c + 1))
                 = Raise (SyntaxError "invalid syntax" l (c + 2)
                                      (Transformer.expression self) : exn)
                   :> outcome expr).
  { unfold get_lineno, get_col_offset, Transformer.error. rewrite Hl, Hc.
    cbn [mbind outcome_bind]. do 2 f_equal. lia. }
  cbn [Transformer.visit].
  destruct node as [op values a | lhs op rhs a | op operand a
                   | test body orelse a | lhs ops comparators a
                   | func args keywords a | v a | v attr ctx a | id ctx a
                   | elts ctx a];
    try discriminate Hd; cbn [Transformer.generic_visit].
  - destruct lhs; try discriminate Hd; now rewrite Herr.
  - destruct op; try discriminate Hd; now rewrite Herr.
  - now rewrite Herr.
  - now rewrite Herr.
  - destruct func; try discriminate Hd; now rewrite Herr.
  - now rewrite Herr.
  - destruct ctx; try discriminate Hd; now rewrite Herr.
  - now rewrite Herr.
Qed.

Lemma default_arm_error_witness :
  default_arm (UnaryOp USub (Constant (CInt 1) (Parser.at_ 1 2))
                       (Parser.at_ 0 2)) = true
  /\ lineno (attrs (UnaryOp USub (Constant (CInt 1) (Parser.at_ 1 2))
                            (Parser.at_ 0 2))) = Some 1
  /\ col_offset (attrs (UnaryOp USub (Constant (CInt 1) (Parser.at_ 1 2))
                                (Parser.at_ 0 2))) = Some 0
  /\ Transformer.visit (Transformer.Make (Some "-1"))
       (Expression (UnaryOp USub (Constant (CInt 1) (Parser.at_ 1 2))
                            (Parser.at_ 0 2)))
     = Raise (SyntaxError "invalid syntax" 1 (0 + 2) (Some "-1")).
Proof.
  split; [reflexivity|]. split; [reflexivity|]. split; [reflexivity|].
  apply (default_arm_error (Transformer.Make (Some "-1"))
           (UnaryOp USub (Constant (CInt 1) (Parser.at_ 1 2)) (Parser.at_ 0 2))
           1 0); reflexivity.
Defined.

(** ** Expressions without [not] and [empty()] *)

Lemma eval_values_monotone (ev1 ev2 : expr -> outcome value) (op : boolop)
      (vs : list expr) :
  Forall (fun v => exists b1 b2 : bool,
              ev1 v = Return (VBool b1) /\ ev2 v = Return (VBool b2)
              /\ (b1 = true -> b2 = true)) vs ->
  eval_values ev1 op vs = Return (VBool true) ->
  eval_values ev2 op vs = Return (VBool true).
Proof.
  induction 1 as [|v vs (b1 & b2 & H1 & H2 & Hb) _ IH]; [discriminate|].
  simpl. rewrite H1, H2. simpl. destruct vs as [|v' vs'].
  - intros [= ->]. now rewrite Hb.
  - destruct op, b1, b2; simpl; try (specialize (Hb eq_refl)); try discriminate;
      try exact IH; try reflexivity; intros; try discriminate; try reflexivity.
Qed.

Lemma rewritten_monotone (items1 items2 : value) (node : expr) :
  supported items1 -> supported items2 ->
  (forall key : string, contained key items1 -> contained key items2) ->
  positive node = true ->
  forall (self : Transformer.t) (node' : expr),
    Transformer.generic_visit self node = Return node' ->
    validate node' = Return tt ->
    eval_expr (namespace items1) node' = Return (VBool true) ->
    eval_expr (namespace items2) node' = Return (VBool true).
Proof.
  intros Hs1 Hs2 Hsub.
  induction node using expr_children_ind; intros Hp self node' Hv Hc;
    apply generic_visit_Return in Hv
      as [(k & a' & Hn & ->) | [(k & a' & Hn & ->) | [(x & fa & a' & Hn & ->)
          | [(x & fa & a' & Hn & ->) | [(o & vs & vs' & a' & Hn & Hm & ->)
          | (e & e' & a' & Hn & He & ->)]]]]];
    try discriminate Hn;
    try (rewrite !eval_membership_test;
         match goal with
         | |- context [contains items1 (VStr ?key)] =>
             destruct (contains_spec items1 key Hs1) as (b1 & -> & Hb1);
             destruct (contains_spec items2 key Hs2) as (b2 & -> & Hb2)
         end;
         cbn [mbind outcome_bind]; intros [= ->];
         now rewrite (proj2 Hb2 (Hsub _ (proj1 Hb1 eq_refl))));
    try (intros _; reflexivity).
  - injection Hn as -> -> ->. cbn [eval_expr]. cbn [positive] in Hp.
    cbn [validate] in Hc.
    destruct (length vs' <? 2)%nat; [discriminate|].
    destruct (mapM validate vs') as [us| |] eqn:Hus; try discriminate.
    apply mapM_validate_Forall in Hus.
    apply eval_values_monotone.
    assert (Hall : Forall (fun v' => validate v' = Return tt ->
               exists b1 b2 : bool,
                 eval_expr (namespace items1) v' = Return (VBool b1)
                 /\ eval_expr (namespace items2) v' = Return (VBool b2)
                 /\ (b1 = true -> b2 = true)) vs').
    { clear Hus. revert vs' Hm.
      induction H as [|v vs0 Hv _ IH]; intros vs' Hm.
      - injection Hm as <-. constructor.
      - simpl in Hm.
        destruct (Transformer.generic_visit self v) as [v'| |] eqn:Ev;
          try discriminate.
        simpl in Hm.
        destruct (mapM (Transformer.generic_visit self) vs0) as [vs''| |] eqn:Evs;
          try discriminate.
        injection Hm as <-. cbn [forallb] in Hp.
        apply andb_prop in Hp as [Hp1 Hp2].
        constructor; [|now apply IH].
        intros Hval.
        destruct (rewritten_evaluates items1 v Hs1 _ _ Ev Hval) as [b1 E1].
        destruct (rewritten_evaluates items2 v Hs2 _ _ Ev Hval) as [b2 E2].
        exists b1, b2. split; [exact E1|]. split; [exact E2|].
        intros ->. specialize (Hv Hp1 self v' Ev Hval E1).
        rewrite E2 in Hv. now injection Hv. }
    clear - Hall Hus. induction Hall as [|v vs Hv _ IH]; [constructor|].
    apply Forall_cons_1 in Hus as [H1 H2].
    constructor; [now apply Hv | now apply IH].
  - injection Hn as -> -> ->. discriminate Hp.
  - injection Hn as -> -> -> ->. discriminate Hp.
Qed.

(** X14.  For an expression without [not] and without [empty()], a match
    is kept when the collection grows: if every key contained in one
    supported collection is contained in another one, a matcher that
    returns [True] on the first returns [True] on the second. *)
Theorem more_items_keep_match (text : string) (body : expr)
        (m : ExpressionMatcher.t) (items1 items2 : value) :
  positive body = true ->
  ExpressionMatcher.init_parsed text (Expression body) = Return m ->
  supported items1 -> supported items2 ->
  (forall key : string, contained key items1 -> contained key items2) ->
  ExpressionMatcher.__call__ m items1 = Return (VBool true) ->
  ExpressionMatcher.__call__ m items2 = Return (VBool true).
Proof.
  intros Hp H Hs1 Hs2 Hsub.
  apply init_parsed_Return in H as (b & b' & [= <-] & Hv & Hc & ->).
  rewrite !call_matcher_of.
  now apply (rewritten_monotone items1 items2 body Hs1 Hs2 Hsub Hp _ _ Hv Hc).
Qed.

Lemma more_items_keep_match_witness :
  positive x_or_y = true
  /\ ExpressionMatcher.init_parsed "x or y" (Expression x_or_y)
     = Return (matcher_of "x or y"
                 (BoolOp Or [membership_test "x"; membership_test "y"]
                         (Parser.at_ 0 6)))
  /\ supported (VList ["y"]) /\ supported (VList ["z"; "y"])
  /\ (forall key : string,
         contained key (VList ["y"]) -> contained key (VList ["z"; "y"]))
  /\ ExpressionMatcher.__call__
       (matcher_of "x or y"
          (BoolOp Or [membership_test "x"; membership_test "y"]
                  (Parser.at_ 0 6))) (VList ["y"]) = Return (VBool true)
  /\ ExpressionMatcher.__call__
       (matcher_of "x or y"
          (BoolOp Or [membership_test "x"; membership_test "y"]
                  (Parser.at_ 0 6))) (VList ["z"; "y"]) = Return (VBool true).
Proof.
  assert (Hsub : forall key : string,
             contained key (VList ["y"]) -> contained key (VList ["z"; "y"])).
  { intros key. cbn [contained]. rewrite !elem_of_cons. tauto. }
  split; [reflexivity|]. split; [reflexivity|]. split; [exact I|].
  split; [exact I|]. split; [exact Hsub|]. split; [reflexivity|].
  apply (more_items_keep_match "x or y" x_or_y _ (VList ["y"]) (VList ["z"; "y"]));
    [reflexivity | reflexivity | exact I | exact I | exact Hsub | reflexivity].
Defined.
